(** * Client-side PII codec and e-signature evidence: a shallow embedding

    Sources embedded:
    - [client/src/lib/client-encryption.ts]  (module [ClientEncryption])
    - [client/src/lib/signature-service.ts]  (module [SignatureService])

    The browser runtime the two files call into (strings, [btoa]/[atob],
    [encodeURIComponent]/[decodeURIComponent], [TextEncoder], [Date],
    [navigator], [screen], [crypto.subtle], [console]) is modelled in module
    [Js], following ECMA-262 and the WHATWG HTML/Encoding standards. *)

From Stdlib Require Import ZArith List String Ascii Bool Lia DecimalString SpecFloat.
Import ListNotations.
Open Scope Z_scope.

(* ================================================================== *)
(** * Part I: definitions *)
(* ================================================================== *)

Module Js.

(** ** Strings

    An ECMAScript string is a finite sequence of 16-bit code units.  A code
    unit is a [Z]; [code_units] states the 16-bit range. *)

Definition jsstring := list Z.

Definition code_unit (c : Z) : Prop := 0 <= c < 65536.
Definition code_units (s : jsstring) : Prop := Forall code_unit s.

Definition ascii_units (s : jsstring) : Prop := Forall (fun c => 0 <= c < 128) s.

(** Octets, as in an [ArrayBuffer] or a binary string. *)
Definition octets (l : list Z) : Prop := Forall (fun b => 0 <= b < 256) l.

(** A source-level string literal made of ASCII characters. *)
Definition lit (s : string) : jsstring :=
  map (fun a => Z.of_N (N_of_ascii a)) (list_ascii_of_string s).

(** [!s] for a value of type string: only the empty string is falsy. *)
Definition falsy (s : jsstring) : bool :=
  match s with [] => true | _ :: _ => false end.

(** [a || b] on strings. *)
Definition or_else (a b : jsstring) : jsstring := if falsy a then b else a.

(** [s.length] *)
Definition strlen (s : jsstring) : Z := Z.of_nat (List.length s).

Fixpoint streq (a b : jsstring) : bool :=
  match a, b with
  | [], [] => true
  | x :: a', y :: b' => (x =? y) && streq a' b'
  | _, _ => false
  end.

(** [Array.prototype.join] on an array of strings. *)
Fixpoint join (sep : jsstring) (parts : list jsstring) : jsstring :=
  match parts with
  | [] => []
  | [p] => p
  | p :: rest => p ++ sep ++ join sep rest
  end.

(** [String.prototype.padStart] with a one-unit filler. *)
Definition padStart (n : nat) (fill : Z) (s : jsstring) : jsstring :=
  repeat fill (n - List.length s) ++ s.

(** [String.prototype.includes]: [t] occurs in [s] at some position. *)
Fixpoint startsWith (s t : jsstring) {struct t} : bool :=
  match t, s with
  | [], _ => true
  | y :: t', x :: s' => (x =? y) && startsWith s' t'
  | _ :: _, [] => false
  end.

Fixpoint includes (s t : jsstring) : bool :=
  startsWith s t ||
  match s with
  | [] => false
  | _ :: s' => includes s' t
  end.

(** ** Character classes *)

Definition between (lo hi c : Z) : bool := (lo <=? c) && (c <=? hi).

(** [\d] in a regular expression without the [u] flag. *)
Definition is_digit (c : Z) : bool := between 48 57 c.
Definition is_upper (c : Z) : bool := between 65 90 c.
Definition is_lower (c : Z) : bool := between 97 122 c.
Definition is_ascii (c : Z) : bool := between 0 127 c.

(** ECMA-262 WhiteSpace and LineTerminator, the set [trim] strips. *)
Definition is_js_space (c : Z) : bool :=
  between 9 13 c || (c =? 32) || (c =? 160) || (c =? 5760) ||
  between 8192 8202 c || (c =? 8232) || (c =? 8233) || (c =? 8239) ||
  (c =? 8287) || (c =? 12288) || (c =? 65279).

Fixpoint trimStart (s : jsstring) : jsstring :=
  match s with
  | [] => []
  | c :: s' => if is_js_space c then trimStart s' else s
  end.

Definition trimEnd (s : jsstring) : jsstring := rev (trimStart (rev s)).

Definition visible (c : Z) : bool := negb (is_js_space c).

(** [String.prototype.trim] *)
Definition trim (s : jsstring) : jsstring := trimEnd (trimStart s).

(** The ASCII part of the Unicode lower-case mapping. *)
Definition ascii_lower (c : Z) : Z := if is_upper c then c + 32 else c.

(** ** Numbers

    The Numbers the sources compute with are integers: screen sizes, their
    product, a time-zone offset in minutes.  An integer [n : Z] stands for
    the Number (IEEE binary64) nearest to it, [nearest_Number n]; it is that
    Number exactly when [is_Number n].  The product of two Numbers is the
    Number nearest to their exact product, so printing [a * b] with
    [Number_toString] prints what the runtime prints for the product of the
    Numbers [a] and [b]. *)

(** The Number nearest to an integer, ties to even; infinite from 2^1024 - 2^970 on. *)
Definition nearest_Number (n : Z) : spec_float := binary_normalize 53 1024 n 0 false.

(** The value of a finite Number obtained in this way. *)
Definition Number_value (x : spec_float) : option Z :=
  match x with
  | S754_zero _ => Some 0
  | S754_finite s m e =>
      let v := Z.shiftl (Zpos m) e in Some (if s then - v else v)
  | S754_infinity _ => None
  | S754_nan => None
  end.

Definition is_Number (n : Z) : bool :=
  match Number_value (nearest_Number n) with
  | Some v => v =? n
  | None => false
  end.

(** An integer written out in decimal, with '-' when negative. *)
Definition decimal (n : Z) : jsstring := lit (NilZero.string_of_int (Z.to_int n)).

(** [rounds_to c v]: the Number nearest to [c] has the value [v]. *)
Definition rounds_to (c v : Z) : bool :=
  match Number_value (nearest_Number c) with
  | Some v' => v' =? v
  | None => false
  end.

(** Number::toString, step 5, for a positive integral Number of value [v]
    with [n] decimal digits: the integer with the fewest significant digits
    [k] that still rounds to [v]; of two such, the one nearer to [v], then
    the one whose last significant digit is even.  [k] runs from 1 upwards,
    and [k = n] always succeeds, with [v] itself. *)
Fixpoint shortest (fuel : nat) (k : Z) (v n : Z) : Z :=
  match fuel with
  | O => v
  | S fuel' =>
      let p := 10 ^ (n - k) in
      let s := v / p in
      let lo := s * p in
      let hi := lo + p in
      match rounds_to lo v, rounds_to hi v with
      | true, false => lo
      | false, true => hi
      | true, true =>
          match (v - lo ?= hi - v) with
          | Lt => lo
          | Gt => hi
          | Eq => if Z.even s then lo else hi
          end
      | false, false => shortest fuel' (k + 1) v n
      end
  end.

(** Decimal digits without their trailing zeros. *)
Fixpoint strip_zeros (digits : jsstring) : jsstring :=
  match digits with
  | [] => []
  | d :: rest =>
      match strip_zeros rest with
      | [] => if d =? 48 then [] else [d]
      | r => d :: r
      end
  end.

(** Number::toString on a positive integral Number: the digits, followed by
    zeros, up to 21 digits in all; beyond that, exponent notation. *)
Definition positive_toString (v : Z) : jsstring :=
  let n := Z.of_nat (List.length (decimal v)) in
  let c := shortest (Z.to_nat n) 1 v n in
  let digits := decimal c in
  let n' := Z.of_nat (List.length digits) in
  if n' <=? 21 then digits
  else
    match strip_zeros digits with
    | [] => digits
    | [d] => [d] ++ lit "e+" ++ decimal (n' - 1)
    | d :: rest => [d] ++ lit "." ++ rest ++ lit "e+" ++ decimal (n' - 1)
    end.

(** [Number::toString] of the Number nearest to [n]. *)
Definition Number_toString (n : Z) : jsstring :=
  match nearest_Number n with
  | S754_zero _ => lit "0"
  | S754_nan => lit "NaN"
  | S754_infinity s => (if s then lit "-" else []) ++ lit "Infinity"
  | S754_finite s m e =>
      (if s then lit "-" else []) ++ positive_toString (Z.shiftl (Zpos m) e)
  end.

(** [n || 0] on a Number that is an integer. *)
Definition or_zero (n : Z) : Z := if n =? 0 then 0 else n.

Definition hex_lower (d : Z) : Z := if d <? 10 then 48 + d else 87 + d.
Definition hex_upper (d : Z) : Z := if d <? 10 then 48 + d else 55 + d.

(** [b.toString(16)] for an element [b] of a [Uint8Array]. *)
Definition toString16 (b : Z) : jsstring :=
  if b <? 16 then [hex_lower b] else [hex_lower (b / 16); hex_lower (b mod 16)].

(** Value of a hexadecimal digit, either case. *)
Definition hex_value (c : Z) : option Z :=
  if is_digit c then Some (c - 48)
  else if between 65 70 c then Some (c - 55)
  else if between 97 102 c then Some (c - 87)
  else None.

(** ** Exceptions *)

Inductive exn : Type :=
| URIError
| InvalidCharacterError
| TypeError
| ReferenceError
| OperationError.

Inductive result (A : Type) : Type :=
| Ok (a : A)
| Throw (e : exn).
Arguments Ok {A} a.
Arguments Throw {A} e.

Definition rbind {A B} (r : result A) (k : A -> result B) : result B :=
  match r with
  | Ok a => k a
  | Throw e => Throw e
  end.

(** ** UTF-16 and UTF-8 *)

Definition is_lead (c : Z) : bool := between 0xD800 0xDBFF c.
Definition is_trail (c : Z) : bool := between 0xDC00 0xDFFF c.
Definition is_surrogate (c : Z) : bool := between 0xD800 0xDFFF c.

(** UTF16SurrogatePairToCodePoint *)
Definition pair_code_point (hi lo : Z) : Z :=
  (hi - 0xD800) * 1024 + (lo - 0xDC00) + 0x10000.

(** A Unicode scalar value: a code point that is not a surrogate. *)
Definition scalar_value (cp : Z) : Prop :=
  0 <= cp <= 0x10FFFF /\ ~ (0xD800 <= cp <= 0xDFFF).

(** IsStringWellFormedUnicode: every surrogate is half of a pair.  These are
    the strings the transform supports. *)
Fixpoint well_formed (s : jsstring) : bool :=
  match s with
  | [] => true
  | c :: rest =>
      if is_lead c then
        match rest with
        | d :: rest' => is_trail d && well_formed rest'
        | [] => false
        end
      else negb (is_trail c) && well_formed rest
  end.

(** UTF16EncodeCodePoint *)
Definition utf16_encode (cp : Z) : jsstring :=
  if cp <? 0x10000 then [cp]
  else [0xD800 + (cp - 0x10000) / 1024; 0xDC00 + (cp - 0x10000) mod 1024].

(** The UTF-8 octets of a code point. *)
Definition utf8_octets (cp : Z) : list Z :=
  if cp <? 0x80 then [cp]
  else if cp <? 0x800 then [0xC0 + cp / 64; 0x80 + cp mod 64]
  else if cp <? 0x10000 then
    [0xE0 + cp / 4096; 0x80 + (cp / 64) mod 64; 0x80 + cp mod 64]
  else
    [0xF0 + cp / 262144; 0x80 + (cp / 4096) mod 64;
     0x80 + (cp / 64) mod 64; 0x80 + cp mod 64].

(** [new TextEncoder().encode(s)]: UTF-8, an unpaired surrogate becoming
    U+FFFD. *)
Fixpoint TextEncoder_encode (s : jsstring) : list Z :=
  match s with
  | [] => []
  | c :: rest =>
      if is_lead c then
        match rest with
        | d :: rest' =>
            if is_trail d
            then utf8_octets (pair_code_point c d) ++ TextEncoder_encode rest'
            else utf8_octets 0xFFFD ++ TextEncoder_encode rest
        | [] => utf8_octets 0xFFFD
        end
      else if is_trail c then utf8_octets 0xFFFD ++ TextEncoder_encode rest
      else utf8_octets c ++ TextEncoder_encode rest
  end.

(** ** [encodeURIComponent] (ECMA-262, abstract operation Encode) *)

Definition uri_unreserved (c : Z) : bool :=
  is_upper c || is_lower c || is_digit c || existsb (Z.eqb c) (lit "-_.!~*'()").

Definition percent_octet (b : Z) : jsstring :=
  [37; hex_upper (b / 16); hex_upper (b mod 16)].

Definition percent_octets (bs : list Z) : jsstring := flat_map percent_octet bs.

Fixpoint encodeURIComponent (s : jsstring) : result jsstring :=
  match s with
  | [] => Ok []
  | c :: rest =>
      if uri_unreserved c then
        rbind (encodeURIComponent rest) (fun r => Ok (c :: r))
      else if is_lead c then
        match rest with
        | d :: rest' =>
            if is_trail d then
              rbind (encodeURIComponent rest')
                (fun r => Ok (percent_octets (utf8_octets (pair_code_point c d)) ++ r))
            else Throw URIError
        | [] => Throw URIError
        end
      else if is_trail c then Throw URIError
      else
        rbind (encodeURIComponent rest)
          (fun r => Ok (percent_octets (utf8_octets c) ++ r))
  end.

(** ** [decodeURIComponent] (ECMA-262, abstract operation Decode) *)

(** ParseHexOctet on the two units after a ['%']. *)
Definition parse_hex_octet (s : jsstring) : option (Z * jsstring) :=
  match s with
  | h :: l :: rest =>
      match hex_value h, hex_value l with
      | Some a, Some b => Some (16 * a + b, rest)
      | _, _ => None
      end
  | _ => None
  end.

(** The [n] escapes [%XX] that continue a multi-octet sequence. *)
Fixpoint continuation_octets (n : nat) (s : jsstring) : option (list Z * jsstring) :=
  match n with
  | O => Some ([], s)
  | S n' =>
      match s with
      | c :: s1 =>
          if c =? 37 then
            match parse_hex_octet s1 with
            | Some (b, s2) =>
                match continuation_octets n' s2 with
                | Some (bs, s3) => Some (b :: bs, s3)
                | None => None
                end
            | None => None
            end
          else None
      | [] => None
      end
  end.

(** Number of leading 1 bits of an octet; 5 stands for "more than four". *)
Definition leading_ones (b : Z) : nat :=
  if b <? 0x80 then 0
  else if b <? 0xC0 then 1
  else if b <? 0xE0 then 2
  else if b <? 0xF0 then 3
  else if b <? 0xF8 then 4
  else 5.

Definition is_continuation (b : Z) : bool := between 0x80 0xBF b.

(** The code point of a well-formed multi-octet UTF-8 sequence: continuation
    octets in range, shortest form, no surrogate, at most U+10FFFF. *)
Definition utf8_decode (octets : list Z) : option Z :=
  match octets with
  | [b0; b1] =>
      let cp := (b0 - 0xC0) * 64 + (b1 - 0x80) in
      if is_continuation b1 && (0x80 <=? cp) then Some cp else None
  | [b0; b1; b2] =>
      let cp := (b0 - 0xE0) * 4096 + (b1 - 0x80) * 64 + (b2 - 0x80) in
      if is_continuation b1 && is_continuation b2 &&
         (0x800 <=? cp) && negb (is_surrogate cp)
      then Some cp else None
  | [b0; b1; b2; b3] =>
      let cp := (b0 - 0xF0) * 262144 + (b1 - 0x80) * 4096 +
                (b2 - 0x80) * 64 + (b3 - 0x80) in
      if is_continuation b1 && is_continuation b2 && is_continuation b3 &&
         (0x10000 <=? cp) && (cp <=? 0x10FFFF)
      then Some cp else None
  | _ => None
  end.

(** The loop of Decode.  Every iteration consumes at least one unit, so the
    length of the input is enough fuel ([decode_loop_fuel] below). *)
Fixpoint decode_loop (fuel : nat) (s : jsstring) : result jsstring :=
  match s with
  | [] => Ok []
  | c :: rest =>
      match fuel with
      | O => Throw URIError
      | S fuel' =>
          if negb (c =? 37) then
            rbind (decode_loop fuel' rest) (fun r => Ok (c :: r))
          else
            match parse_hex_octet rest with
            | None => Throw URIError
            | Some (b, rest1) =>
                match leading_ones b with
                | O => rbind (decode_loop fuel' rest1) (fun r => Ok (b :: r))
                | S O => Throw URIError
                | S (S (S (S (S _)))) => Throw URIError
                | S m =>
                    match continuation_octets m rest1 with
                    | None => Throw URIError
                    | Some (bs, rest2) =>
                        match utf8_decode (b :: bs) with
                        | None => Throw URIError
                        | Some cp =>
                            rbind (decode_loop fuel' rest2)
                              (fun r => Ok (utf16_encode cp ++ r))
                        end
                    end
                end
            end
      end
  end.

Definition decodeURIComponent (s : jsstring) : result jsstring :=
  decode_loop (List.length s) s.

(** ** [btoa] and [atob] (WHATWG HTML, forgiving-base64) *)

Definition b64_char (v : Z) : Z :=
  if v <? 26 then 65 + v
  else if v <? 52 then 71 + v
  else if v <? 62 then v - 4
  else if v =? 62 then 43
  else 47.

Definition b64_value (c : Z) : option Z :=
  if is_upper c then Some (c - 65)
  else if is_lower c then Some (c - 71)
  else if is_digit c then Some (c + 4)
  else if c =? 43 then Some 62
  else if c =? 47 then Some 63
  else None.

Fixpoint base64_encode (bs : list Z) : jsstring :=
  match bs with
  | [] => []
  | [a] => [b64_char (a / 4); b64_char ((a mod 4) * 16); 61; 61]
  | [a; b] =>
      [b64_char (a / 4); b64_char ((a mod 4) * 16 + b / 16);
       b64_char ((b mod 16) * 4); 61]
  | a :: b :: c :: rest =>
      [b64_char (a / 4); b64_char ((a mod 4) * 16 + b / 16);
       b64_char ((b mod 16) * 4 + c / 64); b64_char (c mod 64)]
      ++ base64_encode rest
  end.

Definition btoa (s : jsstring) : result jsstring :=
  if forallb (fun c => c <=? 255) s then Ok (base64_encode s)
  else Throw InvalidCharacterError.

Definition is_ascii_whitespace (c : Z) : bool :=
  (c =? 9) || (c =? 10) || (c =? 12) || (c =? 13) || (c =? 32).

(** Drops the one or two ['='] the data ends with. *)
Fixpoint strip_padding (d : jsstring) : jsstring :=
  match d with
  | [] => []
  | c :: rest =>
      if (c =? 61) && (streq rest [] || streq rest [61]) then []
      else c :: strip_padding rest
  end.

Fixpoint b64_values (d : jsstring) : option (list Z) :=
  match d with
  | [] => Some []
  | c :: rest =>
      match b64_value c, b64_values rest with
      | Some v, Some vs => Some (v :: vs)
      | _, _ => None
      end
  end.

(** Four sextets give three octets; a final group of three or two sextets
    gives two or one, the surplus bits being discarded. *)
Fixpoint base64_decode (vs : list Z) : list Z :=
  match vs with
  | v0 :: v1 :: v2 :: v3 :: rest =>
      [v0 * 4 + v1 / 16; (v1 mod 16) * 16 + v2 / 4; (v2 mod 4) * 64 + v3]
      ++ base64_decode rest
  | [v0; v1; v2] => [v0 * 4 + v1 / 16; (v1 mod 16) * 16 + v2 / 4]
  | [v0; v1] => [v0 * 4 + v1 / 16]
  | _ => []
  end.

Definition atob (data : jsstring) : result jsstring :=
  let d := filter (fun c => negb (is_ascii_whitespace c)) data in
  let d := if Z.of_nat (List.length d) mod 4 =? 0 then strip_padding d else d in
  if Z.of_nat (List.length d) mod 4 =? 1 then Throw InvalidCharacterError
  else
    match b64_values d with
    | None => Throw InvalidCharacterError
    | Some vs => Ok (base64_decode vs)
    end.

(** ** The ambient environment and effects *)

(** What [new Date()] yields, as far as the sources look at it. *)
Record Date : Type := {
  toISOString : jsstring;
  getTimezoneOffset : Z
}.

(** One call of [console.error(message, e)]. *)
Record LogEntry : Type := {
  log_message : jsstring;
  log_error : exn
}.

(** The globals the sources read.  [clock] gives the successive readings of
    the system clock and [ticks] counts the readings made so far;
    [subtle_digest] is [crypto.subtle.digest('SHA-256', _)], where [Throw]
    stands for a rejected promise as well as for a missing [crypto] or
    [crypto.subtle]; [console] is the error log, oldest entry first. *)
Record World : Type := {
  nav_userAgent : jsstring;
  nav_language : option jsstring;
  nav_platform : option jsstring;
  screen_width : Z;
  screen_height : Z;
  intl_timeZone : jsstring;
  clock : nat -> Date;
  ticks : nat;
  subtle_digest : list Z -> result (list Byte.byte);
  console : list LogEntry
}.

Definition set_ticks (n : nat) (w : World) : World :=
  {| nav_userAgent := nav_userAgent w; nav_language := nav_language w;
     nav_platform := nav_platform w; screen_width := screen_width w;
     screen_height := screen_height w; intl_timeZone := intl_timeZone w;
     clock := clock w; ticks := n;
     subtle_digest := subtle_digest w; console := console w |}.

Definition set_console (l : list LogEntry) (w : World) : World :=
  {| nav_userAgent := nav_userAgent w; nav_language := nav_language w;
     nav_platform := nav_platform w; screen_width := screen_width w;
     screen_height := screen_height w; intl_timeZone := intl_timeZone w;
     clock := clock w; ticks := ticks w;
     subtle_digest := subtle_digest w; console := l |}.

(** Computations that read and change the world and may throw.  An [async]
    function is such a computation: its promise resolves with [Ok] and
    rejects with [Throw]. *)
Definition JS (A : Type) : Type := World -> result A * World.

Definition ret {A} (a : A) : JS A := fun w => (Ok a, w).

Definition bind {A B} (m : JS A) (k : A -> JS B) : JS B :=
  fun w =>
    match m w with
    | (Ok a, w') => k a w'
    | (Throw e, w') => (Throw e, w')
    end.

Definition lift {A} (r : result A) : JS A := fun w => (r, w).

Definition gets {A} (f : World -> A) : JS A := fun w => (Ok (f w), w).

(** [try { body } catch (e) { handler e }] *)
Definition try_catch {A} (body : JS A) (handler : exn -> JS A) : JS A :=
  fun w =>
    match body w with
    | (Ok a, w') => (Ok a, w')
    | (Throw e, w') => handler e w'
    end.

Definition console_error (message : jsstring) (e : exn) : JS unit :=
  fun w =>
    (Ok tt,
     set_console (console w ++ [{| log_message := message; log_error := e |}]) w).

Definition new_Date : JS Date :=
  fun w => (Ok (clock w (ticks w)), set_ticks (S (ticks w)) w).

Definition crypto_subtle_digest (buffer : list Z) : JS (list Byte.byte) :=
  fun w => (subtle_digest w buffer, w).

Declare Scope js_scope.
Delimit Scope js_scope with js.
Notation "x <- m ;; k" := (bind m (fun x => k))
  (at level 61, m at next level, right associativity) : js_scope.
Notation "m ;;; k" := (bind m (fun _ => k))
  (at level 61, right associativity) : js_scope.

End Js.

(* ------------------------------------------------------------------ *)
(** ** client/src/lib/client-encryption.ts *)
(* ------------------------------------------------------------------ *)

Module ClientEncryption.
Import Js.
Local Open Scope js_scope.

Definition encodeForTransmission (data : jsstring) : JS jsstring :=
  if falsy data then ret []
  else
    try_catch
      (u <- lift (encodeURIComponent data) ;;
       lift (btoa u))
      (fun e =>
         console_error
           (lit "[CLIENT_ENCRYPTION] Failed to encode data for transmission") e ;;;
         ret data).

Definition decodeFromTransmission (encoded : jsstring) : JS jsstring :=
  if falsy encoded then ret []
  else
    try_catch
      (b <- lift (atob encoded) ;;
       lift (decodeURIComponent b))
      (fun e =>
         console_error (lit "[CLIENT_ENCRYPTION] Failed to decode data") e ;;;
         ret encoded).

(** [ssn.replace(/\D/g, '')] *)
Definition cleanSSN (ssn : jsstring) : jsstring :=
  if falsy ssn then []
  else filter is_digit ssn.

(** [/^(\d)\1{8}$/.test(s)]: a digit, then eight copies of it, then the end. *)
Definition repeated_digit_test (s : jsstring) : bool :=
  match s with
  | [] => false
  | d :: rest => is_digit d && streq rest (repeat d 8)
  end.

Record Encoded : Type := {
  encoded : jsstring;
  error : option jsstring
}.

Definition encodeSSNForTransmission (ssn : jsstring) : JS Encoded :=
  if falsy ssn then
    ret {| encoded := []; error := Some (lit "SSN is required") |}
  else
    let cleaned := cleanSSN ssn in
    if negb (strlen cleaned =? 9) then
      ret {| encoded := []; error := Some (lit "SSN must be 9 digits") |}
    else if repeated_digit_test cleaned then
      ret {| encoded := []; error := Some (lit "Invalid SSN format") |}
    else
      e <- encodeForTransmission cleaned ;;
      ret {| encoded := e; error := None |}.

Definition SENSITIVE_FIELDS : list jsstring :=
  [lit "ssn"; lit "socialSecurityNumber"; lit "dateOfBirth"].

Section CaseMapping.
(** [String.prototype.toLowerCase], whose Unicode case tables are not part
    of the sources, is taken as a parameter. *)
Variable toLowerCase : jsstring -> jsstring.

Definition isSensitiveField (fieldName : jsstring) : bool :=
  existsb (fun name => includes (toLowerCase fieldName) (toLowerCase name))
    SENSITIVE_FIELDS.
End CaseMapping.

End ClientEncryption.

(* ------------------------------------------------------------------ *)
(** ** client/src/lib/signature-service.ts *)
(* ------------------------------------------------------------------ *)

Module SignatureService.
Import Js.
Local Open Scope js_scope.

Record SignatureMetadata : Type := {
  timestamp : jsstring;
  ipAddress : jsstring;
  userAgent : jsstring;
  screenResolution : jsstring;
  timezone : jsstring;
  consentGiven : bool;
  signatureValue : jsstring;
  signatureHash : jsstring;
  deviceFingerprint : jsstring
}.

Definition byte_value (b : Byte.byte) : Z := Z.of_N (Byte.to_N b).

Definition hashString (data : jsstring) : JS jsstring :=
  try_catch
    (let dataBuffer := TextEncoder_encode data in
     hashBuffer <- crypto_subtle_digest dataBuffer ;;
     let hashArray := map byte_value hashBuffer in
     let hashHex :=
       join [] (map (fun b => padStart 2 48 (toString16 b)) hashArray) in
     ret hashHex)
    (fun e =>
       console_error (lit "[SIGNATURE] Hash failed:") e ;;;
       ret (lit "unknown")).

(** [x || 'unknown'] on a property that may be undefined. *)
Definition or_unknown (x : option jsstring) : jsstring :=
  match x with
  | Some s => or_else s (lit "unknown")
  | None => lit "unknown"
  end.

(** The last part, [(screen.width || 0) * (screen.height || 0)], is a product
    of Numbers: the Number nearest to the exact product, which is the Number
    [Number_toString] prints for the exact product. *)
Definition generateDeviceFingerprint : JS jsstring :=
  language <- gets nav_language ;;
  platform <- gets nav_platform ;;
  d <- new_Date ;;
  width <- gets screen_width ;;
  height <- gets screen_height ;;
  let parts :=
    [or_unknown language;
     or_unknown platform;
     Number_toString (getTimezoneOffset d);
     Number_toString (or_zero width * or_zero height)] in
  ret (join (lit "|") parts).

Definition captureSignatureMetadata (signatureValue : jsstring)
  : JS SignatureMetadata :=
  d <- new_Date ;;
  let timestamp := toISOString d in
  userAgent <- gets nav_userAgent ;;
  width <- gets screen_width ;;
  height <- gets screen_height ;;
  let screenResolution :=
    Number_toString width ++ lit "x" ++ Number_toString height in
  timezone <- gets intl_timeZone ;;
  signatureHash <- hashString (signatureValue ++ timestamp) ;;
  deviceFingerprint <- generateDeviceFingerprint ;;
  ret {| timestamp := timestamp;
         ipAddress := [];
         userAgent := userAgent;
         screenResolution := screenResolution;
         timezone := timezone;
         consentGiven := true;
         signatureValue := signatureValue;
         signatureHash := signatureHash;
         deviceFingerprint := deviceFingerprint |}.

Record Validation : Type := {
  valid : bool;
  errors : list jsstring
}.

(** [errors.push(reason)] *)
Definition push (errors : list jsstring) (reason : string) : list jsstring :=
  errors ++ [lit reason].

Definition validateSignatureMetadata (metadata : SignatureMetadata) : Validation :=
  let errors := [] in
  let errors :=
    if falsy (timestamp metadata) then push errors "Timestamp missing" else errors in
  let errors :=
    if falsy (userAgent metadata) then push errors "User agent missing" else errors in
  let errors :=
    if falsy (signatureValue metadata) || (strlen (signatureValue metadata) <? 2)
    then push errors "Signature value invalid" else errors in
  let errors :=
    if negb (consentGiven metadata) then push errors "Consent not given" else errors in
  let errors :=
    if falsy (signatureHash metadata) then push errors "Signature hash missing" else errors in
  {| valid := (List.length errors =? 0)%nat; errors := errors |}.

Definition nl : jsstring := [10].

Definition formatSignatureMetadata (metadata : SignatureMetadata) : jsstring :=
  trim
    (nl ++
     lit "Signature Metadata (ESIGN Act Compliance)" ++ nl ++
     lit "==========================================" ++ nl ++
     lit "Signed By: " ++ signatureValue metadata ++ nl ++
     lit "Timestamp: " ++ timestamp metadata ++ nl ++
     lit "Time Zone: " ++ timezone metadata ++ nl ++
     lit "IP Address: " ++ or_else (ipAddress metadata) (lit "pending") ++ nl ++
     lit "Device: " ++ screenResolution metadata ++ nl ++
     lit "User Agent: " ++ userAgent metadata ++ nl ++
     lit "Device Fingerprint: " ++ deviceFingerprint metadata ++ nl ++
     lit "Signature Hash: " ++ signatureHash metadata ++ nl ++
     lit "Consent Given: " ++ (if consentGiven metadata then lit "Yes" else lit "No") ++
     nl ++ lit "  ").

End SignatureService.

(* ------------------------------------------------------------------ *)
(** ** Reference definitions, written from the specification's words *)
(* ------------------------------------------------------------------ *)

Module Spec.
Import Js SignatureService.

(** The sixteen hexadecimal digits, lower case, by their value. *)
Definition hex_digit (n : nat) : Z := nth n (lit "0123456789abcdef") 0.

(** "Hex-encoded digest": each octet as two hexadecimal digits, the high half
    first. *)
Definition hex_encode (digest : list Byte.byte) : jsstring :=
  flat_map
    (fun b => [hex_digit (Byte.to_nat b / 16)%nat; hex_digit (Byte.to_nat b mod 16)%nat])
    digest.

(** The diagnostics of the two transmission functions, and the world after
    one of them is logged. *)
Definition encode_failure (e : exn) : LogEntry :=
  {| log_message := lit "[CLIENT_ENCRYPTION] Failed to encode data for transmission";
     log_error := e |}.

Definition decode_failure (e : exn) : LogEntry :=
  {| log_message := lit "[CLIENT_ENCRYPTION] Failed to decode data";
     log_error := e |}.

Definition logged (entry : LogEntry) (w : World) : World :=
  set_console (console w ++ [entry]) w.

(** The three rejections of an identifier. *)
Definition ssn_required : ClientEncryption.Encoded :=
  {| ClientEncryption.encoded := []; ClientEncryption.error := Some (lit "SSN is required") |}.
Definition ssn_wrong_length : ClientEncryption.Encoded :=
  {| ClientEncryption.encoded := []; ClientEncryption.error := Some (lit "SSN must be 9 digits") |}.
Definition ssn_invalid_format : ClientEncryption.Encoded :=
  {| ClientEncryption.encoded := []; ClientEncryption.error := Some (lit "Invalid SSN format") |}.

End Spec.

(* ------------------------------------------------------------------ *)
(** ** Sample inputs *)
(* ------------------------------------------------------------------ *)

Module Samples.
Import Js SignatureService.

Definition sentinel_record : SignatureMetadata :=
  {| timestamp := lit "2024-01-01T00:00:00.000Z";
     ipAddress := [];
     userAgent := lit "Mozilla/5.0";
     screenResolution := lit "1920x1080";
     timezone := lit "UTC";
     consentGiven := true;
     signatureValue := lit "Jane Doe";
     signatureHash := lit "unknown";
     deviceFingerprint := lit "en-US|Linux|0|2073600" |}.

(** A second record built field by field from the first. *)
Definition sentinel_copy : SignatureMetadata :=
  {| timestamp := timestamp sentinel_record;
     ipAddress := ipAddress sentinel_record;
     userAgent := userAgent sentinel_record;
     screenResolution := screenResolution sentinel_record;
     timezone := timezone sentinel_record;
     consentGiven := consentGiven sentinel_record;
     signatureValue := signatureValue sentinel_record;
     signatureHash := signatureHash sentinel_record;
     deviceFingerprint := deviceFingerprint sentinel_record |}.

Definition sample_date : Date :=
  {| toISOString := lit "2024-01-01T00:00:00.000Z"; getTimezoneOffset := 0 |}.

(** A browser whose [crypto.subtle] is missing (an insecure context). *)
Definition no_crypto_world : World :=
  {| nav_userAgent := lit "Mozilla/5.0";
     nav_language := Some (lit "en-US");
     nav_platform := None;
     screen_width := 1920;
     screen_height := 1080;
     intl_timeZone := lit "UTC";
     clock := fun _ => sample_date;
     ticks := 0;
     subtle_digest := fun _ => Throw TypeError;
     console := [] |}.

(** "Zoë 😀": ASCII, a Latin-1 letter, a space and a surrogate pair. *)
Definition sample_text : jsstring := [90; 111; 235; 32; 0xD83D; 0xDE00].

Definition lone_surrogate : jsstring := [0xD800].

(** A case mapping that only knows the ASCII letters. *)
Definition ascii_toLowerCase (s : jsstring) : jsstring := map ascii_lower s.

End Samples.

Module Terms.
Import Js SignatureService.

(** The log entry of a failed digest. *)
Definition hash_failure (e : exn) : LogEntry :=
  {| log_message := lit "[SIGNATURE] Hash failed:"; log_error := e |}.

(** The fingerprint computed when the clock has been read [n] times. *)
Definition fingerprint_at (w : World) (n : nat) : jsstring :=
  join (lit "|")
    [or_unknown (nav_language w);
     or_unknown (nav_platform w);
     Number_toString (getTimezoneOffset (clock w n));
     Number_toString (or_zero (screen_width w) * or_zero (screen_height w))].

End Terms.

Module MoreSamples.
Import Js SignatureService Samples.

Definition later_date : Date :=
  {| toISOString := lit "2024-01-01T00:00:00.250Z"; getTimezoneOffset := -60 |}.

(** A browser whose digest resolves (to three octets, whatever the data) and
    whose clock has moved on between the first reading and the next ones. *)
Definition digest_world : World :=
  {| nav_userAgent := lit "Mozilla/5.0";
     nav_language := Some [];
     nav_platform := Some (lit "Linux");
     screen_width := 1920;
     screen_height := 1080;
     intl_timeZone := lit "Europe/Paris";
     clock := fun n => match n with O => sample_date | S _ => later_date end;
     ticks := 0;
     subtle_digest := fun _ => Ok [Byte.x00; Byte.xab; Byte.xff];
     console := [] |}.

(** The first sample browser with its display turned by a quarter. *)
Definition rotated_world : World :=
  {| nav_userAgent := nav_userAgent no_crypto_world;
     nav_language := nav_language no_crypto_world;
     nav_platform := nav_platform no_crypto_world;
     screen_width := 1080;
     screen_height := 1920;
     intl_timeZone := intl_timeZone no_crypto_world;
     clock := clock no_crypto_world;
     ticks := ticks no_crypto_world;
     subtle_digest := subtle_digest no_crypto_world;
     console := console no_crypto_world |}.

(** The first sample browser with a display given as [width] by [height]. *)
Definition with_screen (width height : Z) : World :=
  {| nav_userAgent := nav_userAgent no_crypto_world;
     nav_language := nav_language no_crypto_world;
     nav_platform := nav_platform no_crypto_world;
     screen_width := width;
     screen_height := height;
     intl_timeZone := intl_timeZone no_crypto_world;
     clock := clock no_crypto_world;
     ticks := ticks no_crypto_world;
     subtle_digest := subtle_digest no_crypto_world;
     console := console no_crypto_world |}.

End MoreSamples.

(* ================================================================== *)
(** * Part II: properties *)
(* ================================================================== *)

(** ** The runtime model on known values *)

Module RuntimeExamples.
Import Js ClientEncryption SignatureService Samples.

Example encodeURIComponent_space :
  encodeURIComponent (lit "a b") = Ok (lit "a%20b").
Proof. reflexivity. Qed.

Example encodeURIComponent_latin1 :
  encodeURIComponent [233] = Ok (lit "%C3%A9").
Proof. reflexivity. Qed.

Example encodeURIComponent_euro :
  encodeURIComponent [0x20AC] = Ok (lit "%E2%82%AC").
Proof. reflexivity. Qed.

Example encodeURIComponent_pair :
  encodeURIComponent [0xD83D; 0xDE00] = Ok (lit "%F0%9F%98%80").
Proof. reflexivity. Qed.

Example encodeURIComponent_lone_trail :
  encodeURIComponent [97; 0xDE00] = Throw URIError.
Proof. reflexivity. Qed.

Example decodeURIComponent_lower_hex :
  decodeURIComponent (lit "%c3%a9%e2%82%ac") = Ok [233; 0x20AC].
Proof. reflexivity. Qed.

Example decodeURIComponent_overlong :
  decodeURIComponent (lit "%C0%80") = Throw URIError.
Proof. reflexivity. Qed.

Example decodeURIComponent_encoded_surrogate :
  decodeURIComponent (lit "%ED%A0%80") = Throw URIError.
Proof. reflexivity. Qed.

Example decodeURIComponent_truncated :
  decodeURIComponent (lit "%E2%82") = Throw URIError.
Proof. reflexivity. Qed.

Example decodeURIComponent_bare_percent :
  decodeURIComponent (lit "100%") = Throw URIError.
Proof. reflexivity. Qed.

Example btoa_hello : btoa (lit "Hello") = Ok (lit "SGVsbG8=").
Proof. reflexivity. Qed.

Example btoa_wide : btoa [0x20AC] = Throw InvalidCharacterError.
Proof. reflexivity. Qed.

Example atob_unpadded : atob (lit "SGVsbG8") = Ok (lit "Hello").
Proof. reflexivity. Qed.

Example atob_spaces : atob (lit " SGVs bG8= ") = Ok (lit "Hello").
Proof. reflexivity. Qed.

Example atob_bad_length : atob (lit "SGVsb") = Throw InvalidCharacterError.
Proof. reflexivity. Qed.

Example atob_bad_padding : atob (lit "SG=V") = Throw InvalidCharacterError.
Proof. reflexivity. Qed.

(** The example in the source's own comment on [encodeForTransmission]. *)
Example encodeForTransmission_documented :
  encodeForTransmission (lit "123-45-6789") no_crypto_world
  = (Ok (lit "MTIzLTQ1LTY3ODk="), no_crypto_world).
Proof. reflexivity. Qed.

Example cleanSSN_spaces : cleanSSN (lit "12345678 9") = lit "123456789".
Proof. reflexivity. Qed.

Example encodeSSN_repeated :
  encodeSSNForTransmission (lit "000000000") no_crypto_world
  = (Ok {| encoded := []; error := Some (lit "Invalid SSN format") |}, no_crypto_world).
Proof. reflexivity. Qed.

Example encodeSSN_short :
  encodeSSNForTransmission (lit "12345") no_crypto_world
  = (Ok {| encoded := []; error := Some (lit "SSN must be 9 digits") |}, no_crypto_world).
Proof. reflexivity. Qed.

Example trim_both_ends : trim (lit "  a b  ") = lit "a b".
Proof. reflexivity. Qed.

Example fingerprint_no_crypto_world :
  fst (generateDeviceFingerprint no_crypto_world) = Ok (lit "en-US|unknown|0|2073600").
Proof. reflexivity. Qed.

Example validate_without_consent :
  validateSignatureMetadata
    {| timestamp := lit "2024-01-01T00:00:00.000Z"; ipAddress := [];
       userAgent := lit "Mozilla/5.0"; screenResolution := lit "1920x1080";
       timezone := lit "UTC"; consentGiven := false;
       signatureValue := lit "J"; signatureHash := [];
       deviceFingerprint := [] |}
  = {| valid := false;
       errors := [lit "Signature value invalid"; lit "Consent not given";
                  lit "Signature hash missing"] |}.
Proof. reflexivity. Qed.

End RuntimeExamples.

(** ** Numbers and digests on known values *)

Module NumberExamples.
Import Js SignatureService Spec Samples MoreSamples.

Example Number_toString_small :
  map Number_toString [0; 7; 1920; -60; 2073600]
  = [lit "0"; lit "7"; lit "1920"; lit "-60"; lit "2073600"].
Proof. vm_compute. reflexivity. Qed.

Example Number_toString_53_bits :
  map Number_toString
    [9007199254740991; 9007199254740992; 9007199254740993; 9007199254740995]
  = [lit "9007199254740991"; lit "9007199254740992"; lit "9007199254740992";
     lit "9007199254740996"].
Proof. vm_compute. reflexivity. Qed.

Example Number_toString_rounded_product :
  Number_toString (94906267 * 94906267) = lit "9007199515875288".
Proof. vm_compute. reflexivity. Qed.

Example Number_toString_shortest :
  map Number_toString [2 ^ 60; 123456789012345678901; 2 ^ 64]
  = [lit "1152921504606847000"; lit "123456789012345680000";
     lit "18446744073709552000"].
Proof. vm_compute. reflexivity. Qed.

Example Number_toString_exponent :
  map Number_toString
    [10 ^ 21 - 1; 10 ^ 21; 10 ^ 23; 12345678901234567890123; - (10 ^ 25); 2 ^ 80 - 1]
  = [lit "1e+21"; lit "1e+21"; lit "1e+23"; lit "1.2345678901234568e+22";
     lit "-1e+25"; lit "1.2089258196146292e+24"].
Proof. vm_compute. reflexivity. Qed.

Example Number_toString_largest :
  map Number_toString [2 ^ 1023; 2 ^ 1024 - 2 ^ 971; 2 ^ 1024 - 2 ^ 970; - (2 ^ 1024)]
  = [lit "8.98846567431158e+307"; lit "1.7976931348623157e+308"; lit "Infinity";
     lit "-Infinity"].
Proof. vm_compute. reflexivity. Qed.

Example is_Number_examples :
  map is_Number [0; -1080; 9007199254740992; 9007199254740993; 10 ^ 21; 10 ^ 23; 2 ^ 1024]
  = [true; true; true; false; true; false; false].
Proof. vm_compute. reflexivity. Qed.

Example screenResolution_exponent :
  match fst (captureSignatureMetadata (lit "Jane Doe") (with_screen (10 ^ 21) 1)) with
  | Ok m => screenResolution m = lit "1e+21x1"
  | Throw _ => False
  end.
Proof. vm_compute. reflexivity. Qed.

Example fingerprint_rounded_area :
  fst (generateDeviceFingerprint (with_screen 94906267 94906267))
  = Ok (lit "en-US|unknown|0|9007199515875288").
Proof. vm_compute. reflexivity. Qed.

Example fingerprint_zero_width :
  fst (generateDeviceFingerprint (with_screen 0 1080))
  = Ok (lit "en-US|unknown|0|0").
Proof. vm_compute. reflexivity. Qed.

(** The octets 00 ab ff in hexadecimal, by the notation and by the code. *)
Example hex_encode_octets :
  hex_encode [Byte.x00; Byte.xab; Byte.xff; Byte.x0f; Byte.x10] = lit "00abff0f10".
Proof. reflexivity. Qed.

Example hashString_octets :
  hashString (lit "Jane Doe") digest_world = (Ok (lit "00abff"), digest_world).
Proof. reflexivity. Qed.

(** A whole capture, every field and the world after it. *)
Example capture_digest_world :
  captureSignatureMetadata (lit "Jane Doe") digest_world
  = (Ok {| timestamp := lit "2024-01-01T00:00:00.000Z";
           ipAddress := [];
           userAgent := lit "Mozilla/5.0";
           screenResolution := lit "1920x1080";
           timezone := lit "Europe/Paris";
           consentGiven := true;
           signatureValue := lit "Jane Doe";
           signatureHash := lit "00abff";
           deviceFingerprint := lit "unknown|Linux|-60|2073600" |},
     set_ticks 2 digest_world).
Proof. vm_compute. reflexivity. Qed.

End NumberExamples.

Module NumberFacts.
Import Js.

(** Whatever the fuel, the integer whose digits are printed reads back as
    the Number that was printed; the search for fewer digits never leaves the
    rounding interval of the value. *)
Lemma shortest_rounds_to (fuel : nat) (k v n : Z) :
  rounds_to v v = true -> rounds_to (shortest fuel k v n) v = true.
Proof.
  intros Hv. revert k. induction fuel as [|fuel IH]; intros k; cbn [shortest].
  - exact Hv.
  - destruct (rounds_to (v / 10 ^ (n - k) * 10 ^ (n - k)) v) eqn:Elo;
      destruct (rounds_to (v / 10 ^ (n - k) * 10 ^ (n - k) + 10 ^ (n - k)) v) eqn:Ehi.
    + destruct (_ ?= _); [destruct (Z.even _)| |]; assumption.
    + exact Elo.
    + exact Ehi.
    + apply IH.
Qed.

(** With [n] rounds of fuel the search ends at the latest with [k = n], on
    the value itself: a value of at most [n] digits is its own candidate
    there. *)
Lemma shortest_last_round (k v : Z) :
  0 < v -> rounds_to v v = true -> shortest 1 k v k = v.
Proof.
  intros Hpos Hv. cbn [shortest]. rewrite Z.sub_diag. change (10 ^ 0) with 1.
  rewrite Z.div_1_r, Z.mul_1_r, Hv.
  destruct (rounds_to (v + 1) v); [|reflexivity].
  replace (v - v) with 0 by lia. replace (v + 1 - v) with 1 by lia.
  reflexivity.
Qed.

End NumberFacts.

Module SignatureFacts.
Import Js SignatureService Spec Samples.

Lemma falsy_nil (s : jsstring) : falsy s = true <-> s = [].
Proof. destruct s; cbn; split; congruence. Qed.

Lemma strlen_lt_2 (s : jsstring) :
  (strlen s <? 2) = true <-> (List.length s < 2)%nat.
Proof. unfold strlen. rewrite Z.ltb_lt. lia. Qed.

(** The reason list, as five independent optional entries. *)
Lemma validate_errors (m : SignatureMetadata) :
  errors (validateSignatureMetadata m) =
    (if falsy (timestamp m) then [lit "Timestamp missing"] else []) ++
    (if falsy (userAgent m) then [lit "User agent missing"] else []) ++
    (if falsy (signatureValue m) || (strlen (signatureValue m) <? 2)
     then [lit "Signature value invalid"] else []) ++
    (if negb (consentGiven m) then [lit "Consent not given"] else []) ++
    (if falsy (signatureHash m) then [lit "Signature hash missing"] else []).
Proof.
  unfold validateSignatureMetadata, push. cbn [errors].
  destruct (falsy (timestamp m)), (falsy (userAgent m)),
    (falsy (signatureValue m) || (strlen (signatureValue m) <? 2)),
    (negb (consentGiven m)), (falsy (signatureHash m)); reflexivity.
Qed.

Ltac reason_cases :=
  repeat match goal with
  | |- context [if ?b then _ else _] => destruct b
  end;
  cbn [app In];
  split; intros H;
  repeat match type of H with
  | _ \/ _ => destruct H as [H | H]
  end;
  try reflexivity; try contradiction; try discriminate H;
  try (vm_compute in H; discriminate H); auto 10.

(** C1: [validateSignatureMetadata] evaluates its five checks independently
    and collects the reasons in the fixed order 'Timestamp missing', 'User
    agent missing', 'Signature value invalid', 'Consent not given',
    'Signature hash missing'; a reason is present exactly when its field
    fails (empty timestamp, empty userAgent, signatureValue empty or shorter
    than 2, consentGiven false, empty signatureHash); and [valid] is true
    exactly when the list of reasons is empty. *)
Theorem validate_collects_reasons (m : SignatureMetadata) :
  let r := validateSignatureMetadata m in
  errors r =
    (if falsy (timestamp m) then [lit "Timestamp missing"] else []) ++
    (if falsy (userAgent m) then [lit "User agent missing"] else []) ++
    (if falsy (signatureValue m) || (strlen (signatureValue m) <? 2)
     then [lit "Signature value invalid"] else []) ++
    (if negb (consentGiven m) then [lit "Consent not given"] else []) ++
    (if falsy (signatureHash m) then [lit "Signature hash missing"] else [])
  /\ (In (lit "Timestamp missing") (errors r) <-> timestamp m = [])
  /\ (In (lit "User agent missing") (errors r) <-> userAgent m = [])
  /\ (In (lit "Signature value invalid") (errors r) <->
        signatureValue m = [] \/ (List.length (signatureValue m) < 2)%nat)
  /\ (In (lit "Consent not given") (errors r) <-> consentGiven m = false)
  /\ (In (lit "Signature hash missing") (errors r) <-> signatureHash m = [])
  /\ (valid r = true <-> errors r = []).
Proof.
  intros r. subst r.
  split; [apply validate_errors|].
  refine (conj _ (conj _ (conj _ (conj _ (conj _ _))))).
  1-5: rewrite validate_errors.
  - rewrite <- falsy_nil. reason_cases.
  - rewrite <- falsy_nil. reason_cases.
  - rewrite <- falsy_nil, <- strlen_lt_2, <- orb_true_iff. reason_cases.
  - rewrite <- negb_true_iff. reason_cases.
  - rewrite <- falsy_nil. reason_cases.
  - cbn [valid errors validateSignatureMetadata]. rewrite Nat.eqb_eq.
    apply length_zero_iff_nil.
Qed.

(** C6: a record whose digest is the sentinel "unknown" and whose other
    fields pass (timestamp and userAgent non-empty, signatureValue of at
    least 2 units, consent given) is accepted with no reasons. *)
Theorem validate_accepts_sentinel (m : SignatureMetadata) :
  signatureHash m = lit "unknown" ->
  timestamp m <> [] ->
  userAgent m <> [] ->
  (2 <= List.length (signatureValue m))%nat ->
  consentGiven m = true ->
  validateSignatureMetadata m = {| valid := true; errors := [] |}.
Proof.
  intros Hh Ht Hu Hs Hc.
  unfold validateSignatureMetadata.
  rewrite Hh, Hc.
  destruct (timestamp m) as [|t0 t]; [congruence|].
  destruct (userAgent m) as [|u0 u]; [congruence|].
  destruct (signatureValue m) as [|s0 [|s1 s]]; cbn in Hs; try lia.
  assert (Hlen : (strlen (s0 :: s1 :: s) <? 2) = false).
  { apply Z.ltb_ge. unfold strlen. cbn [List.length]. lia. }
  cbn [falsy orb negb]. rewrite Hlen. reflexivity.
Qed.

Lemma validate_accepts_sentinel_witness :
  validateSignatureMetadata sentinel_record = {| valid := true; errors := [] |}.
Proof.
  apply validate_accepts_sentinel.
  - reflexivity.
  - discriminate.
  - discriminate.
  - cbn. lia.
  - reflexivity.
Defined.

(** *** Capture *)

Lemma byte_value_range (b : Byte.byte) : 0 <= byte_value b < 256.
Proof.
  unfold byte_value. pose proof (Byte.to_N_bounded b) as H. lia.
Qed.

Lemma hex_of_octet (b : Z) :
  0 <= b < 256 ->
  padStart 2 48 (toString16 b) = [hex_lower (b / 16); hex_lower (b mod 16)].
Proof.
  intros Hb. unfold toString16.
  destruct (b <? 16) eqn:E.
  - apply Z.ltb_lt in E.
    rewrite Z.div_small, Z.mod_small by lia. reflexivity.
  - reflexivity.
Qed.

Lemma join_empty_map {A} (f : A -> jsstring) (l : list A) :
  join [] (map f l) = flat_map f l.
Proof.
  induction l as [|a l IH]; [reflexivity|].
  cbn [map flat_map]. rewrite <- IH.
  destruct l; cbn; [rewrite app_nil_r|]; reflexivity.
Qed.

(** What the code prints for an octet, computed from the octet's value with
    [toString(16)], is the pair of digits the hexadecimal notation gives it:
    checked on each of the 256 octets. *)
Lemma hex_digits_agree (b : Byte.byte) :
  [hex_lower (byte_value b / 16); hex_lower (byte_value b mod 16)]
  = [hex_digit (Byte.to_nat b / 16)%nat; hex_digit (Byte.to_nat b mod 16)%nat].
Proof. destruct b; vm_compute; reflexivity. Qed.

Lemma hashHex_hex_encode (digest : list Byte.byte) :
  join [] (map (fun b => padStart 2 48 (toString16 b)) (map byte_value digest))
  = hex_encode digest.
Proof.
  rewrite map_map, join_empty_map. unfold hex_encode.
  induction digest as [|b l IH]; [reflexivity|].
  cbn [flat_map]. rewrite IH, hex_of_octet by apply byte_value_range.
  rewrite <- (hex_digits_agree b). reflexivity.
Qed.

Lemma hashString_resolves (data : jsstring) (w : World) (digest : list Byte.byte) :
  subtle_digest w (TextEncoder_encode data) = Ok digest ->
  hashString data w = (Ok (hex_encode digest), w).
Proof.
  intros H. unfold hashString, try_catch, bind, crypto_subtle_digest, ret.
  rewrite H, hashHex_hex_encode. reflexivity.
Qed.

Lemma hashString_fails (data : jsstring) (w : World) (e : exn) :
  subtle_digest w (TextEncoder_encode data) = Throw e ->
  hashString data w =
    (Ok (lit "unknown"),
     set_console
       (console w ++ [{| log_message := lit "[SIGNATURE] Hash failed:";
                         log_error := e |}]) w).
Proof.
  intros H. unfold hashString, try_catch, bind, crypto_subtle_digest, ret.
  rewrite H. reflexivity.
Qed.

(** [hashString] itself never throws. *)
Lemma hashString_total (data : jsstring) (w : World) :
  exists h w', hashString data w = (Ok h, w').
Proof.
  destruct (subtle_digest w (TextEncoder_encode data)) as [d|e] eqn:E.
  - eexists _, _. apply hashString_resolves, E.
  - eexists _, _. apply hashString_fails, E.
Qed.

Ltac run_capture :=
  unfold captureSignatureMetadata, generateDeviceFingerprint,
    bind, gets, new_Date, ret;
  cbn [nav_userAgent nav_language nav_platform screen_width screen_height
       intl_timeZone clock ticks subtle_digest console set_ticks set_console].

(** C2: the record [captureSignatureMetadata] returns has consentGiven =
    true, an empty ipAddress, the argument as signatureValue, the first clock
    reading as timestamp, as signatureHash the hex-encoded digest of the
    UTF-8 octets of signatureValue followed by that timestamp when the digest
    primitive succeeds (and "unknown" otherwise), and userAgent,
    screenResolution (width 'x' height) and timezone as the environment
    gives them at capture. *)
Theorem capture_fields (sv : jsstring) (w : World) :
  exists m w',
    captureSignatureMetadata sv w = (Ok m, w') /\
    consentGiven m = true /\
    ipAddress m = [] /\
    signatureValue m = sv /\
    timestamp m = toISOString (clock w (ticks w)) /\
    match subtle_digest w (TextEncoder_encode (sv ++ timestamp m)) with
    | Ok digest => signatureHash m = hex_encode digest
    | Throw _ => signatureHash m = lit "unknown"
    end /\
    userAgent m = nav_userAgent w /\
    screenResolution m =
      Number_toString (screen_width w) ++ lit "x" ++ Number_toString (screen_height w) /\
    timezone m = intl_timeZone w.
Proof.
  destruct (subtle_digest w (TextEncoder_encode (sv ++ toISOString (clock w (ticks w)))))
    as [d|e] eqn:E.
  - eexists _, _. split.
    + run_capture.
      rewrite (hashString_resolves _ _ d) by exact E.
      cbn [nav_language nav_platform screen_width screen_height clock ticks set_ticks].
      reflexivity.
    + cbn [consentGiven ipAddress signatureValue timestamp signatureHash
           userAgent screenResolution timezone].
      rewrite E. repeat split; reflexivity.
  - eexists _, _. split.
    + run_capture.
      rewrite (hashString_fails _ _ e) by exact E.
      cbn [nav_language nav_platform screen_width screen_height clock ticks
           set_ticks set_console].
      reflexivity.
    + cbn [consentGiven ipAddress signatureValue timestamp signatureHash
           userAgent screenResolution timezone].
      rewrite E. repeat split; reflexivity.
Qed.

(** C5: when the digest primitive fails or is unavailable,
    [captureSignatureMetadata] still returns a record (it does not throw),
    the record's signatureHash is "unknown", and exactly one entry, the
    failure, is added to the error log. *)
Theorem capture_survives_digest_failure (sv : jsstring) (w : World) (e : exn) :
  subtle_digest w (TextEncoder_encode (sv ++ toISOString (clock w (ticks w))))
    = Throw e ->
  exists m w',
    captureSignatureMetadata sv w = (Ok m, w') /\
    signatureHash m = lit "unknown" /\
    console w' =
      console w ++ [{| log_message := lit "[SIGNATURE] Hash failed:";
                       log_error := e |}].
Proof.
  intros E. eexists _, _. split.
  - run_capture.
    rewrite (hashString_fails _ _ e) by exact E.
    cbn [nav_language nav_platform screen_width screen_height clock ticks
         set_ticks set_console].
    reflexivity.
  - split; reflexivity.
Qed.

Lemma capture_survives_digest_failure_witness :
  exists m w',
    captureSignatureMetadata (lit "Jane Doe") no_crypto_world = (Ok m, w') /\
    signatureHash m = lit "unknown" /\
    console w' =
      [{| log_message := lit "[SIGNATURE] Hash failed:"; log_error := TypeError |}].
Proof.
  apply (capture_survives_digest_failure (lit "Jane Doe") no_crypto_world TypeError).
  reflexivity.
Defined.

(** *** Audit formatting *)

Lemma trimStart_app (u v : jsstring) :
  existsb visible u = true -> trimStart (u ++ v) = trimStart u ++ v.
Proof.
  induction u as [|c u IH]; cbn [existsb app trimStart]; [discriminate|].
  unfold visible at 1. destruct (is_js_space c); cbn [negb orb]; auto.
Qed.

Lemma existsb_rev {A} (f : A -> bool) (l : list A) :
  existsb f (rev l) = existsb f l.
Proof.
  induction l as [|a l IH]; [reflexivity|].
  cbn [rev existsb]. rewrite existsb_app, IH. cbn [existsb].
  rewrite orb_false_r. apply orb_comm.
Qed.

Lemma trimEnd_app (a b : jsstring) :
  existsb visible b = true -> trimEnd (a ++ b) = a ++ trimEnd b.
Proof.
  intros H. unfold trimEnd.
  rewrite rev_app_distr, trimStart_app by (rewrite existsb_rev; exact H).
  rewrite rev_app_distr, rev_involutive. reflexivity.
Qed.

(** The template's own leading line break and trailing line break and
    indentation are what [trim] removes: the rendered block starts with the
    title line and ends with the consent line. *)
Lemma formatSignatureMetadata_lines (m : SignatureMetadata) :
  formatSignatureMetadata m =
    lit "Signature Metadata (ESIGN Act Compliance)" ++ nl ++
    lit "==========================================" ++ nl ++
    lit "Signed By: " ++ signatureValue m ++ nl ++
    lit "Timestamp: " ++ timestamp m ++ nl ++
    lit "Time Zone: " ++ timezone m ++ nl ++
    lit "IP Address: " ++ or_else (ipAddress m) (lit "pending") ++ nl ++
    lit "Device: " ++ screenResolution m ++ nl ++
    lit "User Agent: " ++ userAgent m ++ nl ++
    lit "Device Fingerprint: " ++ deviceFingerprint m ++ nl ++
    lit "Signature Hash: " ++ signatureHash m ++ nl ++
    lit "Consent Given: " ++ (if consentGiven m then lit "Yes" else lit "No").
Proof.
  unfold formatSignatureMetadata, trim.
  set (yn := if consentGiven m then lit "Yes" else lit "No").
  match goal with
  | |- trimEnd (trimStart (nl ++ ?t)) = _ =>
      change (trimStart (nl ++ t)) with t
  end.
  repeat rewrite app_assoc.
  rewrite <- (app_assoc _ nl (lit "  ")).
  rewrite <- (app_assoc _ yn (nl ++ lit "  ")).
  rewrite trimEnd_app by (subst yn; destruct (consentGiven m); reflexivity).
  replace (trimEnd (yn ++ nl ++ lit "  ")) with yn
    by (subst yn; destruct (consentGiven m); reflexivity).
  reflexivity.
Qed.

(** C8: [formatSignatureMetadata] is a function of the nine fields of its
    argument: two records that agree field by field are rendered to the same
    string. *)
Theorem format_deterministic (m1 m2 : SignatureMetadata) :
  timestamp m1 = timestamp m2 ->
  ipAddress m1 = ipAddress m2 ->
  userAgent m1 = userAgent m2 ->
  screenResolution m1 = screenResolution m2 ->
  timezone m1 = timezone m2 ->
  consentGiven m1 = consentGiven m2 ->
  signatureValue m1 = signatureValue m2 ->
  signatureHash m1 = signatureHash m2 ->
  deviceFingerprint m1 = deviceFingerprint m2 ->
  formatSignatureMetadata m1 = formatSignatureMetadata m2.
Proof.
  intros Ht Hi Hu Hr Hz Hc Hv Hh Hd.
  rewrite !formatSignatureMetadata_lines.
  rewrite Ht, Hi, Hu, Hr, Hz, Hc, Hv, Hh, Hd. reflexivity.
Qed.

Lemma format_deterministic_witness :
  formatSignatureMetadata sentinel_record = formatSignatureMetadata sentinel_copy.
Proof.
  apply format_deterministic; reflexivity.
Defined.

End SignatureFacts.

Module CodecFacts.
Import Js ClientEncryption Spec Samples.

(** *** Strings *)

Lemma streq_eq (a b : jsstring) : streq a b = true <-> a = b.
Proof.
  revert b. induction a as [|x a IH]; intros [|y b]; cbn [streq];
    try (split; congruence).
  rewrite andb_true_iff, Z.eqb_eq, IH. split.
  - intros [-> ->]. reflexivity.
  - intros H. injection H as -> ->. auto.
Qed.

Lemma startsWith_prefix (s t : jsstring) :
  startsWith s t = true <-> exists b, s = t ++ b.
Proof.
  revert s. induction t as [|y t IH]; intros s; cbn [startsWith].
  - split; [intros _; exists s; reflexivity | reflexivity].
  - destruct s as [|x s].
    + split; [discriminate | intros [b H]; discriminate H].
    + rewrite andb_true_iff, Z.eqb_eq, IH. split.
      * intros [-> [b ->]]. exists b. reflexivity.
      * intros [b H]. cbn in H. injection H as -> ->. eauto.
Qed.

(** [includes] decides the substring relation. *)
Lemma includes_substring (s t : jsstring) :
  includes s t = true <-> exists a b, s = a ++ t ++ b.
Proof.
  induction s as [|x s IH].
  - cbn [includes]. rewrite orb_false_r, startsWith_prefix. split.
    + intros [b H]. exists [], b. exact H.
    + intros (a & b & H). destruct a as [|? a]; [eauto | discriminate H].
  - cbn [includes]. rewrite orb_true_iff, startsWith_prefix, IH. split.
    + intros [[b H] | (a & b & H)].
      * exists [], b. exact H.
      * exists (x :: a), b. cbn. rewrite H. reflexivity.
    + intros (a & b & H). destruct a as [|y a].
      * left. exists b. exact H.
      * right. cbn in H. injection H as -> ->. eauto.
Qed.

(** *** Identifier preparation *)

Lemma filter_is_digit_all (s : jsstring) : forallb is_digit (filter is_digit s) = true.
Proof.
  apply forallb_forall. intros c H. apply filter_In in H. tauto.
Qed.

Lemma cleanSSN_filter (ssn : jsstring) : cleanSSN ssn = filter is_digit ssn.
Proof. destruct ssn; reflexivity. Qed.

Lemma strlen_9 (s : jsstring) : (strlen s =? 9) = true <-> List.length s = 9%nat.
Proof. unfold strlen. rewrite Z.eqb_eq. lia. Qed.

(** The regular expression accepts exactly nine copies of one digit. *)
Lemma repeated_digit_test_spec (s : jsstring) :
  repeated_digit_test s = true <-> exists d, is_digit d = true /\ s = repeat d 9.
Proof.
  destruct s as [|c rest]; cbn [repeated_digit_test].
  - split; [discriminate | intros (d & _ & H); discriminate H].
  - rewrite andb_true_iff, streq_eq. split.
    + intros [Hd ->]. exists c. split; [exact Hd | reflexivity].
    + intros (d & Hd & H). cbn in H. injection H as -> ->.
      split; [exact Hd | reflexivity].
Qed.

Lemma is_digit_unreserved (c : Z) : is_digit c = true -> uri_unreserved c = true.
Proof.
  intros H. unfold uri_unreserved. rewrite H.
  rewrite orb_true_r. reflexivity.
Qed.

Lemma encodeURIComponent_unreserved (s : jsstring) :
  forallb uri_unreserved s = true -> encodeURIComponent s = Ok s.
Proof.
  induction s as [|c s IH]; [reflexivity|].
  cbn [forallb encodeURIComponent]. rewrite andb_true_iff.
  intros [Hc Hs]. rewrite Hc, IH by exact Hs. reflexivity.
Qed.

Lemma forallb_impl {A} (f g : A -> bool) (l : list A) :
  (forall a, f a = true -> g a = true) ->
  forallb f l = true -> forallb g l = true.
Proof.
  intros Hfg. rewrite !forallb_forall. auto.
Qed.

Lemma base64_encode_nonempty (bs : list Z) : bs <> [] -> base64_encode bs <> [].
Proof.
  destruct bs as [|a [|b [|c l]]]; cbn [base64_encode app]; congruence.
Qed.

(** A non-empty string of digits is encoded without any failure: the result
    is the base64 text of the digits themselves. *)
Lemma encodeForTransmission_digits (s : jsstring) (w : World) :
  s <> [] -> forallb is_digit s = true ->
  encodeForTransmission s w = (Ok (base64_encode s), w).
Proof.
  intros Hne Hd. unfold encodeForTransmission.
  destruct s as [|c s]; [congruence|]. cbn [falsy].
  unfold try_catch, bind, lift.
  rewrite encodeURIComponent_unreserved
    by (revert Hd; apply forallb_impl, is_digit_unreserved).
  unfold btoa.
  replace (forallb (fun c0 => c0 <=? 255) (c :: s)) with true; [reflexivity|].
  symmetry. revert Hd. apply forallb_impl.
  intros a Ha. unfold is_digit, between in Ha.
  apply andb_true_iff in Ha. destruct Ha as [_ Ha].
  apply Z.leb_le in Ha. apply Z.leb_le. lia.
Qed.

(** The whole decision, evaluated: no branch throws or logs. *)
Lemma encodeSSNForTransmission_eval (ssn : jsstring) (w : World) :
  encodeSSNForTransmission ssn w =
    (Ok (if falsy ssn then ssn_required
         else if negb (List.length (filter is_digit ssn) =? 9)%nat then ssn_wrong_length
         else if repeated_digit_test (filter is_digit ssn) then ssn_invalid_format
         else {| encoded := base64_encode (filter is_digit ssn); error := None |}),
     w).
Proof.
  unfold encodeSSNForTransmission. rewrite cleanSSN_filter.
  destruct (falsy ssn); [reflexivity|].
  destruct (strlen (filter is_digit ssn) =? 9) eqn:E9.
  - apply strlen_9 in E9. rewrite E9. cbn [negb Nat.eqb].
    destruct (repeated_digit_test (filter is_digit ssn)); [reflexivity|].
    unfold bind.
    rewrite encodeForTransmission_digits; [reflexivity| |apply filter_is_digit_all].
    intros H. rewrite H in E9. discriminate E9.
  - replace (List.length (filter is_digit ssn) =? 9)%nat with false; [reflexivity|].
    symmetry. apply Nat.eqb_neq. intros H. apply strlen_9 in H. congruence.
Qed.

Lemma same_digits_test (ssn : jsstring) :
  repeated_digit_test (filter is_digit ssn) = true <->
  exists d, filter is_digit ssn = repeat d 9.
Proof.
  rewrite repeated_digit_test_spec. split.
  - intros (d & _ & H). eauto.
  - intros (d & H). exists d. split; [|exact H].
    pose proof (filter_is_digit_all ssn) as Hall. rewrite H in Hall.
    cbn in Hall. apply andb_true_iff in Hall. tauto.
Qed.

(** C4: [encodeSSNForTransmission] answers "SSN is required" on empty input;
    otherwise "SSN must be 9 digits" when the digit-stripped input has not
    exactly 9 units; otherwise "Invalid SSN format" when those 9 digits are
    all the same; otherwise the encoding of the digit-stripped input, with no
    error.  In every case [encoded] is empty for the three errors, and an
    error is present exactly when [encoded] is the empty string. *)
Theorem encodeSSN_outcomes (ssn : jsstring) (w : World) :
  let digits := filter is_digit ssn in
  let out := encodeSSNForTransmission ssn w in
  (ssn = [] -> out = (Ok ssn_required, w)) /\
  (ssn <> [] -> List.length digits <> 9%nat -> out = (Ok ssn_wrong_length, w)) /\
  (List.length digits = 9%nat -> (exists d, digits = repeat d 9) ->
     out = (Ok ssn_invalid_format, w)) /\
  (List.length digits = 9%nat -> ~ (exists d, digits = repeat d 9) ->
     exists e, encodeForTransmission digits w = (Ok e, w) /\
               out = (Ok {| encoded := e; error := None |}, w)) /\
  (exists r, out = (Ok r, w) /\ (error r <> None <-> encoded r = [])).
Proof.
  intros digits out. subst out. rewrite encodeSSNForTransmission_eval.
  fold digits.
  assert (Hne : List.length digits = 9%nat -> falsy ssn = false).
  { intros H. destruct ssn; [discriminate H | reflexivity]. }
  refine (conj _ (conj _ (conj _ (conj _ _)))).
  - intros ->. reflexivity.
  - intros Hs Hl. destruct ssn; [congruence|]. cbn [falsy].
    apply Nat.eqb_neq in Hl. rewrite Hl. reflexivity.
  - intros Hl Hsame. rewrite (Hne Hl), Hl. cbn [Nat.eqb negb].
    apply same_digits_test in Hsame. fold digits in Hsame. rewrite Hsame.
    reflexivity.
  - intros Hl Hdiff. rewrite (Hne Hl), Hl. cbn [Nat.eqb negb].
    destruct (repeated_digit_test digits) eqn:E.
    + apply same_digits_test in E. contradiction.
    + exists (base64_encode digits). split; [|reflexivity].
      apply encodeForTransmission_digits; [|apply filter_is_digit_all].
      intros H. rewrite H in Hl. discriminate Hl.
  - eexists. split; [reflexivity|].
    destruct (falsy ssn); [cbn; split; congruence|].
    destruct (negb (List.length digits =? 9)%nat) eqn:E9; [cbn; split; congruence|].
    destruct (repeated_digit_test digits); [cbn; split; congruence|].
    cbn [encoded error]. split; [congruence|].
    intros H. exfalso. revert H. apply base64_encode_nonempty.
    intros H. rewrite H in E9. discriminate E9.
Qed.

(** The specification's example: "123-45-6789" is sent as the encoding of
    "123456789". *)
Lemma encodeSSN_outcomes_witness :
  encodeSSNForTransmission (lit "123-45-6789") no_crypto_world
  = (Ok {| encoded := lit "MTIzNDU2Nzg5"; error := None |}, no_crypto_world).
Proof.
  destruct (encodeSSN_outcomes (lit "123-45-6789") no_crypto_world)
    as (_ & _ & _ & H & _).
  destruct H as (e & He & Hout).
  - reflexivity.
  - intros (d & Hd). vm_compute in Hd. congruence.
  - rewrite Hout. vm_compute in He. injection He as <-. reflexivity.
Defined.

(** C10: a non-empty input without any digit is answered "SSN must be 9
    digits", not "SSN is required": emptiness is tested on the raw input,
    before the digits are extracted. *)
Theorem encodeSSN_no_digit (ssn : jsstring) (w : World) :
  ssn <> [] ->
  Forall (fun c => is_digit c = false) ssn ->
  encodeSSNForTransmission ssn w = (Ok ssn_wrong_length, w) /\
  error ssn_wrong_length <> error ssn_required.
Proof.
  intros Hne Hnd. split; [|discriminate].
  rewrite encodeSSNForTransmission_eval.
  destruct ssn as [|c s]; [congruence|]. cbn [falsy].
  replace (filter is_digit (c :: s)) with (@nil Z); [reflexivity|].
  symmetry. induction Hnd as [|a l Ha _ IH]; [reflexivity|].
  cbn [filter]. rewrite Ha. destruct l; [reflexivity|]. apply IH. discriminate.
Qed.

Lemma encodeSSN_no_digit_witness :
  encodeSSNForTransmission (lit "---") no_crypto_world
    = (Ok ssn_wrong_length, no_crypto_world) /\
  error ssn_wrong_length <> error ssn_required.
Proof.
  apply encodeSSN_no_digit.
  - discriminate.
  - repeat constructor.
Defined.

(** *** Sensitive field names *)

Section SensitiveFields.
Variable toLowerCase : jsstring -> jsstring.

(** All that is assumed of the case mapping: on a string of ASCII units it
    lowers the letters A-Z and leaves the rest. *)
Hypothesis toLowerCase_ascii :
  forall s, forallb is_ascii s = true -> toLowerCase s = map ascii_lower s.

Lemma lower_names :
  map toLowerCase SENSITIVE_FIELDS =
    [lit "ssn"; lit "socialsecuritynumber"; lit "dateofbirth"].
Proof.
  unfold SENSITIVE_FIELDS. cbn [map].
  rewrite !toLowerCase_ascii by reflexivity. reflexivity.
Qed.

Lemma isSensitiveField_any (fieldName : jsstring) :
  isSensitiveField toLowerCase fieldName =
    existsb (includes (toLowerCase fieldName)) (map toLowerCase SENSITIVE_FIELDS).
Proof.
  unfold isSensitiveField. induction SENSITIVE_FIELDS as [|n l IH];
    [reflexivity|]. cbn [existsb map]. rewrite IH. reflexivity.
Qed.

(** C9: [isSensitiveField] is true exactly when the lower-cased field name
    contains the lower-cased form of 'ssn', 'socialSecurityNumber' or
    'dateOfBirth'; it is true of "SocialSecurityNumber" and "ssn_value" and
    false of "email". *)
Theorem isSensitiveField_spec :
  (forall fieldName,
      isSensitiveField toLowerCase fieldName = true <->
      exists name,
        In name [lit "ssn"; lit "socialsecuritynumber"; lit "dateofbirth"] /\
        exists a b, toLowerCase fieldName = a ++ name ++ b) /\
  isSensitiveField toLowerCase (lit "SocialSecurityNumber") = true /\
  isSensitiveField toLowerCase (lit "ssn_value") = true /\
  isSensitiveField toLowerCase (lit "email") = false.
Proof.
  split; [|repeat split].
  - intros fieldName. rewrite isSensitiveField_any, lower_names.
    rewrite existsb_exists. split.
    + intros (name & Hin & Hinc). exists name.
      split; [exact Hin | apply includes_substring, Hinc].
    + intros (name & Hin & Hsub). exists name.
      split; [exact Hin | apply includes_substring, Hsub].
  - rewrite isSensitiveField_any, lower_names.
    rewrite toLowerCase_ascii by reflexivity. reflexivity.
  - rewrite isSensitiveField_any, lower_names.
    rewrite toLowerCase_ascii by reflexivity. reflexivity.
  - rewrite isSensitiveField_any, lower_names.
    rewrite toLowerCase_ascii by reflexivity. reflexivity.
Qed.
End SensitiveFields.

Lemma isSensitiveField_spec_witness :
  isSensitiveField ascii_toLowerCase (lit "SocialSecurityNumber") = true /\
  isSensitiveField ascii_toLowerCase (lit "ssn_value") = true /\
  isSensitiveField ascii_toLowerCase (lit "email") = false.
Proof.
  apply (isSensitiveField_spec ascii_toLowerCase).
  intros s _. reflexivity.
Defined.

End CodecFacts.

Module TransformFacts.
Import Js ClientEncryption Spec Samples CodecFacts.

Ltac cmp_cases :=
  repeat (match goal with
    | |- context [?a <? ?b] => destruct (Z.ltb_spec a b)
    | |- context [?a <=? ?b] => destruct (Z.leb_spec a b)
    | |- context [?a =? ?b] => destruct (Z.eqb_spec a b)
    end; try lia; cbn [andb orb negb]).

Ltac divmod := Z.div_mod_to_equations; lia.

(** *** Base64 *)

Lemma list_ind3 {A} (P : list A -> Prop) :
  P [] -> (forall a, P [a]) -> (forall a b, P [a; b]) ->
  (forall a b c l, P l -> P (a :: b :: c :: l)) ->
  forall l, P l.
Proof.
  intros H0 H1 H2 H3 l.
  enough (H : P l /\ (forall a, P (a :: l)) /\ (forall a b, P (a :: b :: l)))
    by apply H.
  induction l as [|x l (IH0 & IH1 & IH2)]; auto.
Qed.

Lemma b64_char_value (v : Z) : 0 <= v < 64 -> b64_value (b64_char v) = Some v.
Proof.
  intros H. unfold b64_char. cmp_cases;
  unfold b64_value, is_upper, is_lower, is_digit, between;
  cmp_cases; f_equal; lia.
Qed.

Lemma b64_value_plain (c v : Z) :
  b64_value c = Some v -> (c =? 61) = false /\ is_ascii_whitespace c = false.
Proof.
  unfold b64_value, is_ascii_whitespace, is_upper, is_lower, is_digit, between.
  intros H; split; [destruct (Z.eqb_spec c 61) as [->|]; [discriminate H|reflexivity]|].
  revert H. cmp_cases; try discriminate; reflexivity.
Qed.

Lemma sextet_facts (v : Z) :
  0 <= v < 64 ->
  b64_value (b64_char v) = Some v /\
  (b64_char v =? 61) = false /\
  is_ascii_whitespace (b64_char v) = false.
Proof.
  intros H. pose proof (b64_char_value v H) as Hv.
  split; [exact Hv | exact (b64_value_plain _ _ Hv)].
Qed.

Ltac sextet v :=
  let V := fresh "V" in let P := fresh "P" in let W := fresh "W" in
  assert (0 <= v < 64) as V by divmod;
  apply sextet_facts in V; destruct V as (V & P & W).

Ltac use_facts :=
  repeat (cbn [filter strip_padding b64_values negb andb orb streq app List.length];
          match goal with
          | H : _ = _ |- _ => rewrite H
          end).

Local Arguments b64_char : simpl never.

Lemma base64_text (x : list Z) :
  octets x ->
  filter (fun c => negb (is_ascii_whitespace c)) (base64_encode x) = base64_encode x /\
  Z.of_nat (List.length (base64_encode x)) mod 4 = 0 /\
  Z.of_nat (List.length (strip_padding (base64_encode x))) mod 4 <> 1 /\
  exists vs, b64_values (strip_padding (base64_encode x)) = Some vs /\
             base64_decode vs = x.
Proof.
  induction x as [|a|a b|a b c l IH] using list_ind3; intros Hx.
  - cbn. repeat split; try lia. exists []. split; reflexivity.
  - inversion Hx as [|? ? Ha _]; subst.
    sextet (a / 4). sextet (a mod 4 * 16).
    cbn [base64_encode]. use_facts. cbn.
    repeat split; try lia.
    eexists. split; [reflexivity|]. cbn. f_equal. divmod.
  - inversion Hx as [|? ? Ha Hx']; subst. inversion Hx' as [|? ? Hb _]; subst.
    sextet (a / 4). sextet (a mod 4 * 16 + b / 16). sextet (b mod 16 * 4).
    cbn [base64_encode]. use_facts. cbn.
    repeat split; try lia.
    eexists. split; [reflexivity|]. cbn. f_equal; [|f_equal]; divmod.
  - inversion Hx as [|? ? Ha Hx']; subst. inversion Hx' as [|? ? Hb Hx'']; subst.
    inversion Hx'' as [|? ? Hc Hl]; subst.
    destruct (IH Hl) as (IHf & IHn & IHs & vs & IHv & IHd).
    sextet (a / 4). sextet (a mod 4 * 16 + b / 16).
    sextet (b mod 16 * 4 + c / 64). sextet (c mod 64).
    cbn [base64_encode]. use_facts.
    repeat split; try lia.
    + revert IHn. generalize (List.length (base64_encode l)). intros n. divmod.
    + revert IHs. generalize (List.length (strip_padding (base64_encode l))).
      intros n. divmod.
    + eexists. split; [reflexivity|]. cbn [base64_decode app]. rewrite IHd.
      f_equal; [|f_equal; [|f_equal]]; divmod.
Qed.

(** *** Percent escapes *)
Lemma hex_upper_value (d : Z) : 0 <= d < 16 -> hex_value (hex_upper d) = Some d.
Proof.
  intros H. unfold hex_upper. cmp_cases;
  unfold hex_value, is_digit, between; cmp_cases; f_equal; lia.
Qed.

Lemma hex_upper_ascii (d : Z) : 0 <= d < 16 -> 0 <= hex_upper d < 128.
Proof. intros H. unfold hex_upper. cmp_cases. Qed.

Lemma parse_percent (b : Z) (rest : jsstring) :
  0 <= b < 256 ->
  parse_hex_octet (hex_upper (b / 16) :: hex_upper (b mod 16) :: rest) = Some (b, rest).
Proof.
  intros H. unfold parse_hex_octet.
  rewrite !hex_upper_value by divmod.
  do 2 f_equal. divmod.
Qed.

Local Arguments hex_upper : simpl never.
Local Arguments parse_hex_octet : simpl never.
Local Arguments leading_ones : simpl never.
Local Arguments utf8_decode : simpl never.
Local Arguments utf16_encode : simpl never.

Lemma continuation_percent (m : nat) (bs : list Z) (rest : jsstring) :
  octets bs -> List.length bs = m ->
  continuation_octets m (percent_octets bs ++ rest) = Some (bs, rest).
Proof.
  intros Hbs. revert m. induction Hbs as [|b bs Hb _ IH]; intros m <-.
  - reflexivity.
  - cbn [List.length percent_octets flat_map percent_octet app continuation_octets].
    change (flat_map percent_octet bs) with (percent_octets bs).
    rewrite Z.eqb_refl, parse_percent, IH by auto. reflexivity.
Qed.

(** *** UTF-8 *)
Lemma utf8_octets_range (cp : Z) : 0 <= cp <= 0x10FFFF -> octets (utf8_octets cp).
Proof.
  intros H. unfold utf8_octets, octets.
  cmp_cases; repeat constructor; divmod.
Qed.

Lemma is_continuation_low6 (x : Z) : is_continuation (0x80 + x mod 64) = true.
Proof. unfold is_continuation, between. apply andb_true_iff. split; apply Z.leb_le; divmod. Qed.

Lemma utf8_decode_octets (cp : Z) :
  scalar_value cp -> 0x80 <= cp -> utf8_decode (utf8_octets cp) = Some cp.
Proof.
  intros [Hr Hs] Hlo. unfold utf8_octets.
  destruct (Z.ltb_spec cp 0x80); [lia|].
  destruct (Z.ltb_spec cp 0x800); [|destruct (Z.ltb_spec cp 0x10000)].
  - unfold utf8_decode. cbv zeta. rewrite !is_continuation_low6.
    replace ((0xC0 + cp / 64 - 0xC0) * 64 + (0x80 + cp mod 64 - 0x80)) with cp by divmod.
    cmp_cases; reflexivity.
  - unfold utf8_decode. cbv zeta. rewrite !is_continuation_low6.
    replace ((0xE0 + cp / 4096 - 0xE0) * 4096 + (0x80 + (cp / 64) mod 64 - 0x80) * 64
             + (0x80 + cp mod 64 - 0x80)) with cp by divmod.
    unfold is_surrogate, between. cmp_cases; reflexivity.
  - unfold utf8_decode. cbv zeta. rewrite !is_continuation_low6.
    replace ((0xF0 + cp / 262144 - 0xF0) * 262144 + (0x80 + (cp / 4096) mod 64 - 0x80) * 4096
             + (0x80 + (cp / 64) mod 64 - 0x80) * 64
             + (0x80 + cp mod 64 - 0x80)) with cp by divmod.
    cmp_cases; reflexivity.
Qed.

Lemma leading_ones_first (cp : Z) :
  0 <= cp <= 0x10FFFF ->
  match utf8_octets cp with
  | b :: bs => leading_ones b = (if cp <? 0x80 then O else S (List.length bs))
  | [] => False
  end.
Proof.
  intros H. unfold utf8_octets.
  destruct (Z.ltb_spec cp 0x80); [|destruct (Z.ltb_spec cp 0x800);
    [|destruct (Z.ltb_spec cp 0x10000)]];
    unfold leading_ones; cbn [List.length]; cmp_cases; try reflexivity; divmod.
Qed.

Lemma utf8_octets_single (cp : Z) : cp < 0x80 -> utf8_octets cp = [cp].
Proof. intros H. unfold utf8_octets. cmp_cases. reflexivity. Qed.

Lemma utf8_octets_multi (cp : Z) :
  0x80 <= cp -> (2 <= List.length (utf8_octets cp) <= 4)%nat.
Proof. intros H. unfold utf8_octets. cmp_cases; cbn; lia. Qed.

(** One iteration of Decode on the escapes of one scalar value. *)
Lemma decode_loop_escape (fuel : nat) (cp : Z) (rest : jsstring) :
  scalar_value cp ->
  decode_loop (S fuel) (percent_octets (utf8_octets cp) ++ rest) =
    rbind (decode_loop fuel rest) (fun r => Ok (utf16_encode cp ++ r)).
Proof.
  intros Hcp. pose proof Hcp as [Hr Hs].
  pose proof (leading_ones_first cp Hr) as Hlead.
  pose proof (utf8_octets_range cp Hr) as Hoct.
  destruct (Z.ltb_spec cp 0x80) as [Hlt|Hge].
  - rewrite utf8_octets_single in * by exact Hlt.
    cbn [percent_octets flat_map percent_octet app decode_loop].
    rewrite parse_percent by lia. rewrite Hlead.
    replace (utf16_encode cp) with [cp]
      by (unfold utf16_encode; cmp_cases; reflexivity).
    reflexivity.
  - pose proof (utf8_decode_octets cp Hcp Hge) as Hdec.
    pose proof (utf8_octets_multi cp Hge) as Hlen.
    destruct (utf8_octets cp) as [|b bs]; [contradiction|].
    inversion Hoct as [|? ? Hb Hbs]; subst.
    cbn [percent_octets flat_map percent_octet app decode_loop].
    change (flat_map percent_octet bs) with (percent_octets bs).
    rewrite parse_percent by exact Hb. rewrite Hlead.
    cbn [List.length] in Hlen.
    destruct bs as [|b1 [|b2 [|b3 [|b4 bs]]]]; cbn [List.length] in Hlen |- *; try lia.
    all: rewrite continuation_percent by (auto; reflexivity).
    all: rewrite Hdec; reflexivity.
Qed.

Lemma list_ind_pair {A} (P : list A -> Prop) :
  P [] -> (forall c, P [c]) ->
  (forall c d l, P l -> P (d :: l) -> P (c :: d :: l)) ->
  forall l, P l.
Proof.
  intros H0 H1 H2 l.
  enough (H : P l /\ forall c, P (c :: l)) by apply H.
  induction l as [|x l [IH0 IH1]]; auto.
Qed.

Lemma rbind_Ok {A B} (r : result A) (k : A -> result B) (b : B) :
  rbind r k = Ok b -> exists a, r = Ok a /\ k a = Ok b.
Proof. destruct r as [a|e]; cbn; [eauto | discriminate]. Qed.

Lemma unreserved_ascii (c : Z) :
  uri_unreserved c = true -> 0 <= c < 128 /\ (c =? 37) = false /\ is_surrogate c = false.
Proof.
  unfold uri_unreserved, is_upper, is_lower, is_digit, is_surrogate, between.
  cbn [existsb lit list_ascii_of_string map]. cbn.
  intros H. revert H. cmp_cases; intros; try discriminate; repeat split; lia.
Qed.

Lemma percent_octets_length (bs : list Z) :
  List.length (percent_octets bs) = (3 * List.length bs)%nat.
Proof.
  unfold percent_octets. induction bs as [|b bs IH]; [reflexivity|].
  cbn [flat_map]. rewrite length_app, IH. cbn [percent_octet List.length]. lia.
Qed.

Lemma utf8_octets_nonempty (cp : Z) : (1 <= List.length (utf8_octets cp))%nat.
Proof. unfold utf8_octets. cmp_cases; cbn; lia. Qed.

Lemma pair_scalar (c d : Z) :
  is_lead c = true -> is_trail d = true ->
  scalar_value (pair_code_point c d) /\ utf16_encode (pair_code_point c d) = [c; d].
Proof.
  unfold is_lead, is_trail, between, pair_code_point, scalar_value, utf16_encode.
  rewrite !andb_true_iff, !Z.leb_le. intros [? ?] [? ?].
  split; [lia|].
  destruct (Z.ltb_spec ((c - 55296) * 1024 + (d - 56320) + 65536) 65536); [lia|].
  f_equal; [|f_equal]; divmod.
Qed.

Lemma unit_scalar (c : Z) :
  code_unit c -> is_lead c = false -> is_trail c = false ->
  scalar_value c /\ utf16_encode c = [c].
Proof.
  unfold code_unit, is_lead, is_trail, between, scalar_value, utf16_encode.
  intros H. cmp_cases; intros; try discriminate; split; (lia || reflexivity).
Qed.

(** Decode undoes Encode, whatever fuel at least the length of the text. *)
Lemma decode_loop_encode (s : jsstring) :
  code_units s ->
  forall u, encodeURIComponent s = Ok u ->
  forall fuel, (List.length u <= fuel)%nat -> decode_loop fuel u = Ok s.
Proof.
  induction s as [|c|c d l IHl IHdl] using list_ind_pair; intros Hs u Hu fuel Hf.
  - injection Hu as <-. destruct fuel; reflexivity.
  - inversion Hs as [|? ? Hc _]; subst. cbn [encodeURIComponent] in Hu.
    destruct (uri_unreserved c) eqn:Eu.
    + cbn in Hu. injection Hu as <-.
      destruct fuel as [|fuel]; [cbn in Hf; lia|].
      apply unreserved_ascii in Eu. destruct Eu as (_ & E37 & _).
      cbn [decode_loop]. rewrite E37. destruct fuel; reflexivity.
    + destruct (is_lead c) eqn:El; [discriminate|].
      destruct (is_trail c) eqn:Et; [discriminate|].
      cbn in Hu. injection Hu as <-.
      destruct (unit_scalar c Hc El Et) as [Hsc H16].
      pose proof (utf8_octets_nonempty c). pose proof (percent_octets_length (utf8_octets c)).
      rewrite app_nil_r in Hf |- *.
      destruct fuel as [|fuel]; [lia|].
      rewrite <- (app_nil_r (percent_octets _)), decode_loop_escape by exact Hsc.
      rewrite H16. destruct fuel; reflexivity.
  - inversion Hs as [|? ? Hc Hs']; subst. inversion Hs' as [|? ? Hd Hs'']; subst.
    cbn [encodeURIComponent] in Hu.
    destruct (uri_unreserved c) eqn:Eu.
    + apply rbind_Ok in Hu. destruct Hu as (u' & Hu' & Hu). injection Hu as <-.
      destruct fuel as [|fuel]; [cbn in Hf; lia|].
      apply unreserved_ascii in Eu. destruct Eu as (_ & E37 & _).
      cbn [decode_loop]. rewrite E37. cbn [negb].
      rewrite (IHdl Hs' u' Hu') by (cbn in Hf; lia). reflexivity.
    + destruct (is_lead c) eqn:El.
      * destruct (is_trail d) eqn:Et; [|discriminate].
        apply rbind_Ok in Hu. destruct Hu as (u' & Hu' & Hu). injection Hu as <-.
        destruct (pair_scalar c d El Et) as [Hsc H16].
        pose proof (utf8_octets_nonempty (pair_code_point c d)).
        pose proof (percent_octets_length (utf8_octets (pair_code_point c d))).
        rewrite length_app in Hf.
        destruct fuel as [|fuel]; [lia|].
        rewrite decode_loop_escape by exact Hsc.
        rewrite (IHl Hs'' u' Hu') by lia. rewrite H16. reflexivity.
      * destruct (is_trail c) eqn:Et; [discriminate|].
        apply rbind_Ok in Hu. destruct Hu as (u' & Hu' & Hu). injection Hu as <-.
        destruct (unit_scalar c Hc El Et) as [Hsc H16].
        pose proof (utf8_octets_nonempty c).
        pose proof (percent_octets_length (utf8_octets c)).
        rewrite length_app in Hf.
        destruct fuel as [|fuel]; [lia|].
        rewrite decode_loop_escape by exact Hsc.
        rewrite (IHdl Hs' u' Hu') by lia. rewrite H16. reflexivity.
Qed.

Lemma unreserved_not_surrogate (c : Z) :
  uri_unreserved c = true -> is_lead c = false /\ is_trail c = false.
Proof.
  intros H. apply unreserved_ascii in H. destruct H as (H & _ & _).
  unfold is_lead, is_trail, between. cmp_cases; auto.
Qed.

(** Encode succeeds exactly on the well-formed strings. *)
Lemma encodeURIComponent_defined (s : jsstring) :
  well_formed s = true <-> exists u, encodeURIComponent s = Ok u.
Proof.
  induction s as [|c|c d l IHl IHdl] using list_ind_pair.
  - cbn. split; eauto.
  - cbn [well_formed encodeURIComponent].
    destruct (uri_unreserved c) eqn:Eu.
    + apply unreserved_not_surrogate in Eu. destruct Eu as [-> ->]. cbn. split; eauto.
    + destruct (is_lead c); [split; [discriminate | intros [u H]; discriminate H]|].
      destruct (is_trail c); cbn; split; eauto; try discriminate.
      intros [u H]; discriminate H.
  - cbn [encodeURIComponent].
    change (well_formed (c :: d :: l)) with
      (if is_lead c then is_trail d && well_formed l
       else negb (is_trail c) && well_formed (d :: l)).
    assert (Hb : forall (r : result jsstring) (k : jsstring -> jsstring),
               (exists u, rbind r (fun x => Ok (k x)) = Ok u) <-> exists u, r = Ok u).
    { intros [a|e] k; cbn; split; eauto; intros [u H]; discriminate H. }
    destruct (uri_unreserved c) eqn:Eu.
    + apply unreserved_not_surrogate in Eu. destruct Eu as [-> ->].
      cbn [negb andb]. rewrite Hb. exact IHdl.
    + destruct (is_lead c).
      * destruct (is_trail d); cbn [andb].
        -- rewrite Hb. exact IHl.
        -- split; [discriminate | intros [u H]; discriminate H].
      * destruct (is_trail c); cbn [negb andb].
        -- split; [discriminate | intros [u H]; discriminate H].
        -- rewrite Hb. exact IHdl.
Qed.

Lemma percent_octets_ascii (bs : list Z) : octets bs -> ascii_units (percent_octets bs).
Proof.
  induction 1 as [|b bs Hb _ IH]; [constructor|].
  unfold percent_octets. cbn [flat_map percent_octet app].
  repeat constructor; try lia; try (apply hex_upper_ascii; divmod).
  exact IH.
Qed.

Lemma scalar_value_range (cp : Z) : scalar_value cp -> 0 <= cp <= 0x10FFFF.
Proof. intros [H _]. exact H. Qed.

(** The text Encode produces is ASCII, and empty only for the empty string. *)
Lemma encodeURIComponent_text (s : jsstring) :
  code_units s ->
  forall u, encodeURIComponent s = Ok u -> ascii_units u /\ (s <> [] -> u <> []).
Proof.
  assert (Hne : forall cp (u' : jsstring), percent_octets (utf8_octets cp) ++ u' <> []).
  { intros cp u' H. apply (f_equal (@List.length Z)) in H.
    rewrite length_app, percent_octets_length in H.
    pose proof (utf8_octets_nonempty cp). cbn in H. lia. }
  induction s as [|c|c d l IHl IHdl] using list_ind_pair; intros Hs u Hu.
  - injection Hu as <-. split; [constructor | congruence].
  - inversion Hs as [|? ? Hc _]; subst. cbn [encodeURIComponent] in Hu.
    destruct (uri_unreserved c) eqn:Eu.
    + cbn in Hu. injection Hu as <-. apply unreserved_ascii in Eu.
      split; [repeat constructor; lia | discriminate].
    + destruct (is_lead c) eqn:El; [discriminate|].
      destruct (is_trail c) eqn:Et; [discriminate|].
      cbn in Hu. injection Hu as <-.
      destruct (unit_scalar c Hc El Et) as [Hsc _].
      split; [|intros _; apply Hne].
      rewrite app_nil_r.
      apply percent_octets_ascii, utf8_octets_range, scalar_value_range, Hsc.
  - inversion Hs as [|? ? Hc Hs']; subst. inversion Hs' as [|? ? Hd Hs'']; subst.
    cbn [encodeURIComponent] in Hu.
    destruct (uri_unreserved c) eqn:Eu.
    + apply rbind_Ok in Hu. destruct Hu as (u' & Hu' & Hu). injection Hu as <-.
      apply unreserved_ascii in Eu. destruct (IHdl Hs' u' Hu') as [Ha _].
      split; [constructor; [lia | exact Ha] | discriminate].
    + destruct (is_lead c) eqn:El.
      * destruct (is_trail d) eqn:Et; [|discriminate].
        apply rbind_Ok in Hu. destruct Hu as (u' & Hu' & Hu). injection Hu as <-.
        destruct (pair_scalar c d El Et) as [Hsc _].
        destruct (IHl Hs'' u' Hu') as [Ha _].
        split; [|intros _; apply Hne].
        apply Forall_app. split; [|exact Ha].
        apply percent_octets_ascii, utf8_octets_range, scalar_value_range, Hsc.
      * destruct (is_trail c) eqn:Et; [discriminate|].
        apply rbind_Ok in Hu. destruct Hu as (u' & Hu' & Hu). injection Hu as <-.
        destruct (unit_scalar c Hc El Et) as [Hsc _].
        destruct (IHdl Hs' u' Hu') as [Ha _].
        split; [|intros _; apply Hne].
        apply Forall_app. split; [|exact Ha].
        apply percent_octets_ascii, utf8_octets_range, scalar_value_range, Hsc.
Qed.

(** *** Fuel *)

Lemma parse_hex_octet_shorter (s r : jsstring) (b : Z) :
  parse_hex_octet s = Some (b, r) -> (List.length r <= List.length s)%nat.
Proof.
  unfold parse_hex_octet. destruct s as [|h [|l rest]]; try discriminate.
  destruct (hex_value h), (hex_value l); try discriminate.
  intros H. injection H as _ <-. cbn. lia.
Qed.

Lemma continuation_octets_shorter (m : nat) (s r : jsstring) (bs : list Z) :
  continuation_octets m s = Some (bs, r) -> (List.length r <= List.length s)%nat.
Proof.
  revert s bs. induction m as [|m IH]; intros s bs; cbn [continuation_octets].
  - intros H. injection H as _ <-. lia.
  - destruct s as [|c s1]; [discriminate|].
    destruct (c =? 37); [|discriminate].
    destruct (parse_hex_octet s1) as [[b s2]|] eqn:E; [|discriminate].
    destruct (continuation_octets m s2) as [[bs' s3]|] eqn:E'; [|discriminate].
    intros H. injection H as _ <-.
    apply parse_hex_octet_shorter in E. apply IH in E'. cbn. lia.
Qed.

Lemma decode_loop_same (n : nat) :
  forall (s : jsstring) (f1 f2 : nat),
    (List.length s <= n)%nat -> (n <= f1)%nat -> (n <= f2)%nat ->
    decode_loop f1 s = decode_loop f2 s.
Proof.
  induction n as [|n IH]; intros s f1 f2 Hs H1 H2.
  - destruct s; [destruct f1, f2; reflexivity | cbn in Hs; lia].
  - destruct s as [|c rest]; [destruct f1, f2; reflexivity|].
    destruct f1 as [|f1]; [lia|]. destruct f2 as [|f2]; [lia|].
    cbn [List.length] in Hs. cbn [decode_loop].
    destruct (negb (c =? 37)).
    + rewrite (IH rest f1 f2) by lia. reflexivity.
    + destruct (parse_hex_octet rest) as [[b rest1]|] eqn:E; [|reflexivity].
      apply parse_hex_octet_shorter in E.
      destruct (leading_ones b) as [|[|m]].
      * rewrite (IH rest1 f1 f2) by lia. reflexivity.
      * reflexivity.
      * destruct m as [|[|[|m]]]; try reflexivity.
        all: match goal with
             | |- context [continuation_octets ?k ?r] =>
                 destruct (continuation_octets k r) as [[bs rest2]|] eqn:E';
                 [|reflexivity]
             end.
        all: apply continuation_octets_shorter in E'.
        all: destruct (utf8_decode (b :: bs)); [|reflexivity].
        all: rewrite (IH rest2 f1 f2) by lia; reflexivity.
Qed.

(** The length of the input is enough fuel: more changes nothing. *)
Lemma decode_loop_fuel (fuel : nat) (s : jsstring) :
  (List.length s <= fuel)%nat -> decode_loop fuel s = decodeURIComponent s.
Proof.
  intros H. unfold decodeURIComponent.
  apply (decode_loop_same (List.length s)); lia.
Qed.

(** *** The two built-in pairs are inverse on what Encode produces *)

Lemma atob_base64_encode (x : list Z) : octets x -> atob (base64_encode x) = Ok x.
Proof.
  intros Hx. destruct (base64_text x Hx) as (Hf & Hn & Hs & vs & Hv & Hd).
  unfold atob. rewrite Hf, Hn. cbn [Z.eqb].
  destruct (Z.eqb_spec (Z.of_nat (List.length (strip_padding (base64_encode x))) mod 4) 1);
    [contradiction|].
  rewrite Hv, Hd. reflexivity.
Qed.

Lemma ascii_units_octets (u : jsstring) : ascii_units u -> octets u.
Proof. apply Forall_impl. intros; lia. Qed.

Lemma btoa_ascii (u : jsstring) : ascii_units u -> btoa u = Ok (base64_encode u).
Proof.
  intros H. unfold btoa.
  replace (forallb (fun c => c <=? 255) u) with true; [reflexivity|].
  symmetry. apply forallb_forall. intros c Hc.
  unfold ascii_units in H. rewrite Forall_forall in H. apply H in Hc.
  apply Z.leb_le. lia.
Qed.

Lemma decodeURIComponent_encode (s u : jsstring) :
  code_units s -> encodeURIComponent s = Ok u -> decodeURIComponent u = Ok s.
Proof.
  intros Hs Hu. unfold decodeURIComponent.
  apply (decode_loop_encode s Hs u Hu). lia.
Qed.

(** *** [encodeForTransmission] and [decodeFromTransmission] *)

Lemma encodeForTransmission_eval (s : jsstring) (w : World) :
  encodeForTransmission s w =
    match s with
    | [] => (Ok [], w)
    | _ :: _ =>
        match rbind (encodeURIComponent s) btoa with
        | Ok r => (Ok r, w)
        | Throw e => (Ok s, logged (encode_failure e) w)
        end
    end.
Proof.
  destruct s as [|c s]; [reflexivity|].
  unfold encodeForTransmission, try_catch, bind, lift. cbn [falsy].
  destruct (encodeURIComponent (c :: s)) as [u|e]; cbn [rbind]; [|reflexivity].
  destruct (btoa u); reflexivity.
Qed.

Lemma decodeFromTransmission_eval (s : jsstring) (w : World) :
  decodeFromTransmission s w =
    match s with
    | [] => (Ok [], w)
    | _ :: _ =>
        match rbind (atob s) decodeURIComponent with
        | Ok r => (Ok r, w)
        | Throw e => (Ok s, logged (decode_failure e) w)
        end
    end.
Proof.
  destruct s as [|c s]; [reflexivity|].
  unfold decodeFromTransmission, try_catch, bind, lift. cbn [falsy].
  destruct (atob (c :: s)) as [u|e]; cbn [rbind]; [|reflexivity].
  destruct (decodeURIComponent u); reflexivity.
Qed.

(** On a supported string the encoder returns the base64 text of the
    percent-escaped string, and the decoder takes that text back. *)
Lemma encodeForTransmission_supported (s u : jsstring) (w : World) :
  code_units s -> s <> [] -> encodeURIComponent s = Ok u ->
  encodeForTransmission s w = (Ok (base64_encode u), w).
Proof.
  intros Hs Hne Hu. rewrite encodeForTransmission_eval.
  destruct s as [|c s]; [congruence|].
  destruct (encodeURIComponent_text _ Hs u Hu) as [Hascii _].
  rewrite Hu. cbn [rbind]. rewrite (btoa_ascii u Hascii). reflexivity.
Qed.

Lemma decodeFromTransmission_encoded (s u : jsstring) (w : World) :
  code_units s -> s <> [] -> encodeURIComponent s = Ok u ->
  decodeFromTransmission (base64_encode u) w = (Ok s, w).
Proof.
  intros Hs Hne Hu. rewrite decodeFromTransmission_eval.
  destruct (encodeURIComponent_text _ Hs u Hu) as [Hascii Hu_ne].
  pose proof (base64_encode_nonempty u (Hu_ne Hne)) as Hb.
  destruct (base64_encode u) as [|b0 b] eqn:Eb; [congruence|].
  rewrite <- Eb, atob_base64_encode by (apply ascii_units_octets, Hascii).
  cbn [rbind]. rewrite (decodeURIComponent_encode _ u Hs Hu). reflexivity.
Qed.

(** C3: on every string of the supported set (16-bit units, every surrogate
    paired), encoding and then decoding gives the string back, and nothing is
    logged on the way. *)
Theorem transmission_round_trip (s : jsstring) (w : World) :
  code_units s ->
  well_formed s = true ->
  bind (encodeForTransmission s) decodeFromTransmission w = (Ok s, w).
Proof.
  intros Hs Hwf.
  destruct s as [|c s]; [reflexivity|].
  apply encodeURIComponent_defined in Hwf. destruct Hwf as [u Hu].
  assert (Hne : c :: s <> []) by discriminate.
  unfold bind.
  rewrite (encodeForTransmission_supported _ u w Hs Hne Hu).
  apply (decodeFromTransmission_encoded _ u w Hs Hne Hu).
Qed.

Lemma transmission_round_trip_witness :
  bind (encodeForTransmission sample_text) decodeFromTransmission no_crypto_world
  = (Ok sample_text, no_crypto_world).
Proof.
  apply transmission_round_trip.
  - repeat constructor; cbn; lia.
  - reflexivity.
Defined.

(** *** Outside the supported set *)

Lemma encodeURIComponent_throws (s : jsstring) (e : exn) :
  encodeURIComponent s = Throw e ->
  e = URIError /\ exists c, In c s /\ is_surrogate c = true.
Proof.
  assert (Hl : forall c, is_lead c = true -> is_surrogate c = true).
  { intros c. unfold is_lead, is_surrogate, between. cmp_cases; auto. }
  assert (Ht : forall c, is_trail c = true -> is_surrogate c = true).
  { intros c. unfold is_trail, is_surrogate, between. cmp_cases; auto. }
  assert (Hb : forall (r : result jsstring) (k : jsstring -> jsstring),
             rbind r (fun x => Ok (k x)) = Throw e -> r = Throw e).
  { intros [a|e'] k; cbn; congruence. }
  induction s as [|c|c d l IHl IHdl] using list_ind_pair;
    cbn [encodeURIComponent]; [discriminate | |].
  - destruct (uri_unreserved c); [discriminate|].
    destruct (is_lead c) eqn:El.
    + intros H. injection H as <-. split; [reflexivity|]. exists c. cbn. auto.
    + destruct (is_trail c) eqn:Et; [|discriminate].
      intros H. injection H as <-. split; [reflexivity|]. exists c. cbn. auto.
  - assert (Hin : e = URIError /\ (exists x, In x (d :: l) /\ is_surrogate x = true) ->
                  e = URIError /\ exists x, In x (c :: d :: l) /\ is_surrogate x = true).
    { intros (He & x & Hx & Hsx). split; [exact He|]. exists x. cbn in *. tauto. }
    destruct (uri_unreserved c).
    + intros H. apply Hb in H. auto.
    + destruct (is_lead c) eqn:El.
      * destruct (is_trail d).
        -- intros H. apply Hb, IHl in H. destruct H as (He & x & Hx & Hsx).
           split; [exact He|]. exists x. cbn in *. tauto.
        -- intros H. injection H as <-. split; [reflexivity|]. exists c. cbn. auto.
      * destruct (is_trail c) eqn:Et.
        -- intros H. injection H as <-. split; [reflexivity|]. exists c. cbn. auto.
        -- intros H. apply Hb in H. auto.
Qed.

Lemma strip_padding_keeps (c : Z) (d : jsstring) :
  In c d -> c <> 61 -> In c (strip_padding d).
Proof.
  intros Hin Hc. induction d as [|x d IH]; [contradiction|].
  cbn [strip_padding].
  destruct ((x =? 61) && (streq d [] || streq d [61])) eqn:E.
  - exfalso. apply andb_true_iff in E. destruct E as [Ex Ed].
    apply Z.eqb_eq in Ex. subst x.
    apply orb_true_iff in Ed. rewrite !streq_eq in Ed.
    destruct Hin as [Hin|Hin]; [lia|].
    destruct Ed as [Ed|Ed]; rewrite Ed in Hin; cbn in Hin; intuition lia.
  - destruct Hin as [->|Hin]; [left; reflexivity | right; auto].
Qed.

Lemma b64_values_none (c : Z) (d : jsstring) :
  In c d -> b64_value c = None -> b64_values d = None.
Proof.
  intros Hin Hc. induction d as [|x d IH]; [contradiction|].
  cbn [b64_values]. destruct Hin as [->|Hin].
  - rewrite Hc. reflexivity.
  - rewrite (IH Hin). destruct (b64_value x); reflexivity.
Qed.

(** A string with a surrogate in it is no base64 text. *)
Lemma atob_surrogate (s : jsstring) (c : Z) :
  In c s -> is_surrogate c = true -> atob s = Throw InvalidCharacterError.
Proof.
  intros Hin Hc.
  assert (Hplain : c <> 61 /\ is_ascii_whitespace c = false /\ b64_value c = None).
  { revert Hc.
    unfold is_surrogate, is_ascii_whitespace, b64_value, is_upper, is_lower,
      is_digit, between.
    cmp_cases; intros; try discriminate; repeat split; lia. }
  destruct Hplain as (H61 & Hws & Hv).
  unfold atob.
  set (d := filter (fun x => negb (is_ascii_whitespace x)) s).
  assert (Hd : In c d) by (apply filter_In; rewrite Hws; auto).
  set (d' := if Z.of_nat (List.length d) mod 4 =? 0 then strip_padding d else d).
  assert (Hd' : In c d').
  { subst d'. destruct (_ =? 0); [apply strip_padding_keeps|]; assumption. }
  destruct (_ =? 1); [reflexivity|].
  rewrite (b64_values_none c d' Hd' Hv). reflexivity.
Qed.

(** Whatever the string, encoding and then decoding returns it: inside the
    supported set by the round trip, outside it because both functions give
    their input back (and each logs its failure). *)
Lemma transmission_round_trip_any (s : jsstring) (w : World) :
  code_units s ->
  exists w', bind (encodeForTransmission s) decodeFromTransmission w = (Ok s, w').
Proof.
  intros Hs. destruct s as [|c s]; [exists w; reflexivity|].
  assert (Hne : c :: s <> []) by discriminate.
  unfold bind.
  destruct (encodeURIComponent (c :: s)) as [u|e] eqn:Hu.
  - exists w. rewrite (encodeForTransmission_supported _ u w Hs Hne Hu).
    apply (decodeFromTransmission_encoded _ u w Hs Hne Hu).
  - rewrite encodeForTransmission_eval, Hu. cbn [rbind].
    rewrite decodeFromTransmission_eval.
    apply encodeURIComponent_throws in Hu. destruct Hu as (_ & x & Hx & Hsx).
    rewrite (atob_surrogate _ x Hx Hsx). cbn [rbind]. eauto.
Qed.

(** C7: neither function throws, whatever the input: each returns a value.
    When the transform inside fails, the failure is logged once and the input
    is returned unchanged; the empty string is mapped to the empty string
    without any log. *)
Theorem transmission_never_throws (s : jsstring) (w : World) :
  (exists r w', encodeForTransmission s w = (Ok r, w')) /\
  (exists r w', decodeFromTransmission s w = (Ok r, w')) /\
  (forall e, rbind (encodeURIComponent s) btoa = Throw e ->
     encodeForTransmission s w = (Ok s, logged (encode_failure e) w)) /\
  (forall e, rbind (atob s) decodeURIComponent = Throw e ->
     decodeFromTransmission s w = (Ok s, logged (decode_failure e) w)) /\
  encodeForTransmission [] w = (Ok [], w) /\
  decodeFromTransmission [] w = (Ok [], w).
Proof.
  rewrite encodeForTransmission_eval, decodeFromTransmission_eval.
  refine (conj _ (conj _ (conj _ (conj _ (conj eq_refl eq_refl))))).
  - destruct s; [eauto|]. destruct (rbind _ _); eauto.
  - destruct s; [eauto|]. destruct (rbind _ _); eauto.
  - intros e H. destruct s; [discriminate H|]. rewrite H. reflexivity.
  - intros e H. destruct s; [discriminate H|]. rewrite H. reflexivity.
Qed.

(** An unpaired surrogate cannot be encoded: the input comes back and the
    [URIError] is in the log. *)
Lemma transmission_never_throws_witness :
  encodeForTransmission lone_surrogate no_crypto_world
  = (Ok lone_surrogate, logged (encode_failure URIError) no_crypto_world).
Proof.
  destruct (transmission_never_throws lone_surrogate no_crypto_world)
    as (_ & _ & H & _).
  apply H. reflexivity.
Defined.

End TransformFacts.

(* ------------------------------------------------------------------ *)
(** ** Further properties of client-encryption.ts *)
(* ------------------------------------------------------------------ *)

Module CodecExtras.
Import Js ClientEncryption Spec Samples MoreSamples CodecFacts TransformFacts.

(** *** [cleanSSN] *)

Lemma filter_filter {A} (f : A -> bool) (l : list A) :
  filter f (filter f l) = filter f l.
Proof.
  induction l as [|a l IH]; [reflexivity|].
  cbn [filter]. destruct (f a) eqn:E; [|exact IH].
  cbn [filter]. rewrite E, IH. reflexivity.
Qed.

Lemma filter_all {A} (f : A -> bool) (l : list A) :
  filter f l = l <-> forallb f l = true.
Proof.
  induction l as [|a l IH]; [cbn; tauto|].
  cbn [filter forallb]. destruct (f a) eqn:E; cbn [andb].
  - rewrite <- IH. split; [intros H; injection H; auto | intros ->; reflexivity].
  - split; [|discriminate]. intros H.
    pose proof (filter_length_le f l) as Hl. rewrite H in Hl. cbn in Hl. lia.
Qed.

(** [cleanSSN] returns the digits 0-9 of its input, all of them and in their
    order: a single unit is kept if it is a digit and dropped otherwise, and
    the result for a concatenation is the concatenation of the results.  So
    its output is all digits, it leaves its own output alone, it leaves an
    input alone exactly when the input is all digits, and it never
    lengthens. *)
Theorem cleanSSN_digits_only (ssn : jsstring) :
  cleanSSN ssn = filter is_digit ssn /\
  (forall c, cleanSSN [c] = if is_digit c then [c] else []) /\
  (forall a b, cleanSSN (a ++ b) = cleanSSN a ++ cleanSSN b) /\
  forallb is_digit (cleanSSN ssn) = true /\
  cleanSSN (cleanSSN ssn) = cleanSSN ssn /\
  (cleanSSN ssn = ssn <-> forallb is_digit ssn = true) /\
  (List.length (cleanSSN ssn) <= List.length ssn)%nat.
Proof.
  split; [apply cleanSSN_filter|].
  split; [intros c; rewrite cleanSSN_filter; reflexivity|].
  split; [intros a b; rewrite !cleanSSN_filter; apply filter_app|].
  rewrite !cleanSSN_filter. repeat split.
  - apply filter_is_digit_all.
  - apply filter_filter.
  - apply filter_all.
  - apply filter_all.
  - apply filter_length_le.
Qed.

(** *** [encodeSSNForTransmission] *)

(** Only the digits of the input matter: two non-empty inputs with the same
    digits in the same order get the same answer. *)
Theorem encodeSSN_ignores_formatting (a b : jsstring) (w : World) :
  a <> [] -> b <> [] ->
  cleanSSN a = cleanSSN b ->
  encodeSSNForTransmission a w = encodeSSNForTransmission b w.
Proof.
  intros Ha Hb H. rewrite !cleanSSN_filter in H.
  rewrite !encodeSSNForTransmission_eval, H.
  destruct a; [congruence|]. destruct b; [congruence|]. reflexivity.
Qed.

Lemma encodeSSN_ignores_formatting_witness :
  encodeSSNForTransmission (lit "123-45-6789") no_crypto_world
  = encodeSSNForTransmission (lit "SSN: 123 45 6789.") no_crypto_world.
Proof.
  apply encodeSSN_ignores_formatting.
  - discriminate.
  - discriminate.
  - reflexivity.
Defined.

Lemma digits_code_units (s : jsstring) : forallb is_digit s = true -> code_units s.
Proof.
  intros H. apply Forall_forall. intros c Hc.
  rewrite forallb_forall in H. apply H in Hc.
  unfold is_digit, between in Hc. apply andb_true_iff in Hc.
  rewrite !Z.leb_le in Hc. unfold code_unit. lia.
Qed.

(** What an answer without error looks like. *)
Lemma encodeSSN_accepted (ssn : jsstring) (w w' : World) (r : Encoded) :
  encodeSSNForTransmission ssn w = (Ok r, w') ->
  error r = None ->
  w' = w /\
  List.length (filter is_digit ssn) = 9%nat /\
  encoded r = base64_encode (filter is_digit ssn).
Proof.
  rewrite encodeSSNForTransmission_eval. intros H He.
  injection H as <- <-. split; [reflexivity|].
  destruct (falsy ssn); [discriminate He|].
  destruct (List.length (filter is_digit ssn) =? 9)%nat eqn:E9;
    cbn [negb] in *; [|discriminate He].
  apply Nat.eqb_eq in E9.
  destruct (repeated_digit_test (filter is_digit ssn)); [discriminate He|].
  split; [exact E9 | reflexivity].
Qed.

(** An accepted identifier can be read back: decoding the [encoded] field
    gives the nine digits of the input, with nothing logged. *)
Theorem encodeSSN_decodes_to_digits (ssn : jsstring) (w w' : World) (r : Encoded) :
  encodeSSNForTransmission ssn w = (Ok r, w') ->
  error r = None ->
  decodeFromTransmission (encoded r) w' = (Ok (cleanSSN ssn), w') /\
  List.length (cleanSSN ssn) = 9%nat /\
  forallb is_digit (cleanSSN ssn) = true.
Proof.
  intros H He. destruct (encodeSSN_accepted _ _ _ _ H He) as (-> & H9 & Henc).
  rewrite cleanSSN_filter, Henc.
  pose proof (filter_is_digit_all ssn) as Hd.
  split; [|split; assumption].
  apply decodeFromTransmission_encoded.
  - apply digits_code_units, Hd.
  - intros E. rewrite E in H9. discriminate H9.
  - apply encodeURIComponent_unreserved.
    revert Hd. apply forallb_impl, is_digit_unreserved.
Qed.

Lemma encodeSSN_decodes_to_digits_witness :
  decodeFromTransmission (lit "MTIzNDU2Nzg5") no_crypto_world
  = (Ok (lit "123456789"), no_crypto_world).
Proof.
  apply (encodeSSN_decodes_to_digits (lit "123-45-6789") no_crypto_world no_crypto_world
           {| encoded := lit "MTIzNDU2Nzg5"; error := None |}).
  - reflexivity.
  - reflexivity.
Defined.

(** The [encoded] field of an accepted identifier is twelve units of the
    base64 alphabet, without padding. *)
Theorem encodeSSN_encoded_shape (ssn : jsstring) (w w' : World) (r : Encoded) :
  encodeSSNForTransmission ssn w = (Ok r, w') ->
  error r = None ->
  List.length (encoded r) = 12%nat /\
  forall c, In c (encoded r) -> exists v, b64_value c = Some v.
Proof.
  intros H He. destruct (encodeSSN_accepted _ _ _ _ H He) as (_ & H9 & ->).
  assert (Hu : Forall (fun c => 48 <= c <= 57) (filter is_digit ssn)).
  { apply Forall_forall. intros c Hc. apply filter_In in Hc. destruct Hc as [_ Hc].
    unfold is_digit, between in Hc. apply andb_true_iff in Hc.
    rewrite !Z.leb_le in Hc. exact Hc. }
  destruct (filter is_digit ssn)
    as [|d1 [|d2 [|d3 [|d4 [|d5 [|d6 [|d7 [|d8 [|d9 [|d10 l]]]]]]]]]];
    try discriminate H9.
  repeat match goal with
  | Hf : Forall _ (_ :: _) |- _ => inversion Hf; subst; clear Hf
  end.
  cbn [base64_encode app]. split; [reflexivity|].
  intros c Hc. cbn [In] in Hc.
  repeat (destruct Hc as [Hc|Hc]; [subst c|]); try contradiction.
  all: eexists; apply b64_char_value; divmod.
Qed.

Lemma encodeSSN_encoded_shape_witness :
  List.length (lit "MTIzNDU2Nzg5") = 12%nat /\
  forall c, In c (lit "MTIzNDU2Nzg5") -> exists v, b64_value c = Some v.
Proof.
  apply (encodeSSN_encoded_shape (lit "123-45-6789") no_crypto_world no_crypto_world
           {| encoded := lit "MTIzNDU2Nzg5"; error := None |}).
  - reflexivity.
  - reflexivity.
Defined.


(** *** Lengths through the transform *)

Lemma logged_changes (entry : LogEntry) (w : World) : logged entry w <> w.
Proof.
  intros H. apply (f_equal console) in H. unfold logged in H. cbn in H.
  apply (f_equal (@List.length LogEntry)) in H. rewrite length_app in H.
  cbn in H. lia.
Qed.

(** Encode leaves a string alone when all of it is unreserved, and makes it
    longer otherwise. *)
Lemma encodeURIComponent_grows (s : jsstring) :
  forall u, encodeURIComponent s = Ok u ->
  (forallb uri_unreserved s = true /\ u = s) \/
  (forallb uri_unreserved s = false /\ (List.length s < List.length u)%nat).
Proof.
  assert (Hesc : forall cp, (3 <= List.length (percent_octets (utf8_octets cp)))%nat).
  { intros cp. rewrite percent_octets_length.
    pose proof (utf8_octets_nonempty cp). lia. }
  assert (Hmono : forall s u, (forallb uri_unreserved s = true /\ u = s) \/
                    (forallb uri_unreserved s = false /\ (List.length s < List.length u)%nat) ->
                  (List.length s <= List.length u)%nat).
  { intros s0 u0 [[_ ->]|[_ H]]; lia. }
  induction s as [|c|c d l IHl IHdl] using list_ind_pair; intros u Hu.
  - injection Hu as <-. left. split; reflexivity.
  - cbn [encodeURIComponent] in Hu. cbn [forallb].
    destruct (uri_unreserved c) eqn:Eu.
    + cbn in Hu. injection Hu as <-. left. split; reflexivity.
    + right. split; [reflexivity|].
      destruct (is_lead c); [discriminate|]. destruct (is_trail c); [discriminate|].
      cbn in Hu. injection Hu as <-. rewrite length_app.
      specialize (Hesc c). cbn [List.length]. lia.
  - cbn [encodeURIComponent] in Hu.
    change (forallb uri_unreserved (c :: d :: l))
      with (uri_unreserved c && forallb uri_unreserved (d :: l)).
    destruct (uri_unreserved c) eqn:Eu; cbn [andb].
    + apply rbind_Ok in Hu. destruct Hu as (u' & Hu' & Hu). injection Hu as <-.
      destruct (IHdl u' Hu') as [[Hall ->]|[Hall Hlen]].
      * left. split; [exact Hall | reflexivity].
      * right. split; [exact Hall|]. cbn [List.length] in *. lia.
    + right. split; [reflexivity|].
      destruct (is_lead c).
      * destruct (is_trail d); [|discriminate].
        apply rbind_Ok in Hu. destruct Hu as (u' & Hu' & Hu). injection Hu as <-.
        pose proof (Hmono _ _ (IHl u' Hu')) as Hle.
        specialize (Hesc (pair_code_point c d)).
        rewrite length_app. cbn [List.length]. lia.
      * destruct (is_trail c); [discriminate|].
        apply rbind_Ok in Hu. destruct Hu as (u' & Hu' & Hu). injection Hu as <-.
        pose proof (Hmono _ _ (IHdl u' Hu')) as Hle.
        specialize (Hesc c).
        rewrite length_app. cbn [List.length] in *. lia.
Qed.

Lemma base64_encode_length (x : list Z) :
  (4 * List.length x <= 3 * List.length (base64_encode x))%nat.
Proof.
  induction x as [|a|a b|a b c l IH] using list_ind3; cbn [base64_encode].
  - cbn. lia.
  - cbn. lia.
  - cbn. lia.
  - rewrite length_app. cbn [List.length]. lia.
Qed.

Lemma parse_hex_octet_length (s r : jsstring) (b : Z) :
  parse_hex_octet s = Some (b, r) -> List.length s = S (S (List.length r)).
Proof.
  unfold parse_hex_octet. destruct s as [|h [|l rest]]; try discriminate.
  destruct (hex_value h), (hex_value l); try discriminate.
  intros H. injection H as _ <-. reflexivity.
Qed.

Lemma utf16_encode_length (cp : Z) : (List.length (utf16_encode cp) <= 2)%nat.
Proof. unfold utf16_encode. destruct (cp <? 65536); cbn; lia. Qed.

(** Decode never makes a string longer. *)
Lemma decode_loop_length (fuel : nat) :
  forall s r, decode_loop fuel s = Ok r -> (List.length r <= List.length s)%nat.
Proof.
  induction fuel as [|fuel IH]; intros s r H.
  - destruct s; [injection H as <-; cbn; lia | discriminate H].
  - destruct s as [|c rest]; [injection H as <-; cbn; lia|].
    cbn [decode_loop] in H.
    destruct (negb (c =? 37)).
    + apply rbind_Ok in H. destruct H as (r' & Hr' & H). injection H as <-.
      apply IH in Hr'. cbn [List.length]. lia.
    + destruct (parse_hex_octet rest) as [[b rest1]|] eqn:E; [|discriminate H].
      apply parse_hex_octet_length in E.
      destruct (leading_ones b) as [|[|m]]; [|discriminate H|].
      * apply rbind_Ok in H. destruct H as (r' & Hr' & H). injection H as <-.
        apply IH in Hr'. cbn [List.length]. lia.
      * destruct m as [|[|[|m]]]; [| | |discriminate H].
        all: match type of H with
             | context [continuation_octets ?k ?t] =>
                 destruct (continuation_octets k t) as [[bs rest2]|] eqn:E';
                 [|discriminate H]
             end.
        all: apply continuation_octets_shorter in E'.
        all: destruct (utf8_decode (b :: bs)) as [cp|]; [|discriminate H].
        all: apply rbind_Ok in H; destruct H as (r' & Hr' & H); injection H as <-.
        all: apply IH in Hr'; rewrite length_app.
        all: pose proof (utf16_encode_length cp); cbn [List.length]; lia.
Qed.

Lemma list_ind4 {A} (P : list A -> Prop) :
  P [] -> (forall a, P [a]) -> (forall a b, P [a; b]) -> (forall a b c, P [a; b; c]) ->
  (forall a b c d l, P l -> P (a :: b :: c :: d :: l)) ->
  forall l, P l.
Proof.
  intros H0 H1 H2 H3 H4 l.
  enough (H : P l /\ (forall a, P (a :: l)) /\ (forall a b, P (a :: b :: l)) /\
              (forall a b c, P (a :: b :: c :: l))) by apply H.
  induction l as [|x l (IH0 & IH1 & IH2 & IH3)]; auto 6.
Qed.

Lemma base64_decode_length (vs : list Z) :
  (4 * List.length (base64_decode vs) <= 3 * List.length vs)%nat.
Proof.
  induction vs as [|a|a b|a b c|a b c d l IH] using list_ind4; cbn [base64_decode].
  - cbn. lia.
  - cbn. lia.
  - cbn. lia.
  - cbn. lia.
  - rewrite length_app. cbn [List.length]. lia.
Qed.

Lemma b64_values_length (d : jsstring) (vs : list Z) :
  b64_values d = Some vs -> List.length vs = List.length d.
Proof.
  revert vs. induction d as [|c d IH]; intros vs; cbn [b64_values].
  - intros H. injection H as <-. reflexivity.
  - destruct (b64_value c); [|discriminate].
    destruct (b64_values d) as [vs'|]; [|discriminate].
    intros H. injection H as <-. cbn. rewrite (IH vs' eq_refl). reflexivity.
Qed.

Lemma strip_padding_length (d : jsstring) :
  (List.length (strip_padding d) <= List.length d)%nat.
Proof.
  induction d as [|c d IH]; [cbn; lia|].
  cbn [strip_padding]. destruct (_ && _); cbn [List.length]; lia.
Qed.

(** What [atob] returns is shorter than a non-empty argument. *)
Lemma atob_length (s b : jsstring) :
  atob s = Ok b -> s <> [] -> (List.length b < List.length s)%nat.
Proof.
  unfold atob.
  set (d := filter (fun c => negb (is_ascii_whitespace c)) s).
  assert (Hd : (List.length d <= List.length s)%nat) by apply filter_length_le.
  set (d' := if Z.of_nat (List.length d) mod 4 =? 0 then strip_padding d else d).
  assert (Hd' : (List.length d' <= List.length d)%nat).
  { subst d'. destruct (_ =? 0); [apply strip_padding_length | lia]. }
  destruct (_ =? 1); [discriminate|].
  destruct (b64_values d') as [vs|] eqn:Ev; [|discriminate].
  intros H Hs. injection H as <-.
  apply b64_values_length in Ev.
  pose proof (base64_decode_length vs).
  destruct s; [congruence|]. cbn [List.length] in *. lia.
Qed.

(** *** [encodeForTransmission] *)

(** A string with an unpaired surrogate is returned as it is, and the
    [URIError] is logged once.  Decoding what came back fails in its turn (a
    surrogate is no base64 text), so the round trip still ends with the
    original string, after a second log entry. *)
Theorem encodeForTransmission_unsupported (s : jsstring) (w : World) :
  well_formed s = false ->
  encodeForTransmission s w = (Ok s, logged (encode_failure URIError) w) /\
  bind (encodeForTransmission s) decodeFromTransmission w
  = (Ok s, logged (decode_failure InvalidCharacterError)
             (logged (encode_failure URIError) w)).
Proof.
  intros Hwf.
  assert (Henc : encodeForTransmission s w = (Ok s, logged (encode_failure URIError) w)
                 /\ exists c, In c s /\ is_surrogate c = true).
  { rewrite encodeForTransmission_eval.
    destruct s as [|c s]; [discriminate Hwf|].
    destruct (encodeURIComponent (c :: s)) as [u|e] eqn:Hu.
    - assert (well_formed (c :: s) = true) by (apply encodeURIComponent_defined; eauto).
      congruence.
    - apply encodeURIComponent_throws in Hu. destruct Hu as [-> Hsur].
      split; [reflexivity | exact Hsur]. }
  destruct Henc as [Henc (c & Hc & Hsur)].
  split; [exact Henc|].
  unfold bind. rewrite Henc, decodeFromTransmission_eval.
  destruct s as [|c0 s0]; [contradiction|].
  rewrite (atob_surrogate _ c Hc Hsur). reflexivity.
Qed.

Lemma encodeForTransmission_unsupported_witness :
  encodeForTransmission [97; 0xDC00; 98] no_crypto_world
  = (Ok [97; 0xDC00; 98], logged (encode_failure URIError) no_crypto_world) /\
  bind (encodeForTransmission [97; 0xDC00; 98]) decodeFromTransmission no_crypto_world
  = (Ok [97; 0xDC00; 98],
     logged (decode_failure InvalidCharacterError)
       (logged (encode_failure URIError) no_crypto_world)).
Proof.
  apply encodeForTransmission_unsupported. reflexivity.
Defined.

(** For a non-empty input the caller can tell failure from success by the
    value alone: either the input comes back and one failure is logged, or
    nothing is logged and the result is strictly longer than the input. *)
Theorem encodeForTransmission_echo_or_longer (s : jsstring) (w : World) :
  s <> [] ->
  (exists e, encodeForTransmission s w = (Ok s, logged (encode_failure e) w)) \/
  (exists r, encodeForTransmission s w = (Ok r, w) /\
             (List.length s < List.length r)%nat).
Proof.
  intros Hne. rewrite encodeForTransmission_eval.
  destruct s as [|c s]; [congruence|].
  destruct (encodeURIComponent (c :: s)) as [u|e] eqn:Hu; cbn [rbind]; [|eauto].
  unfold btoa. destruct (forallb _ u); [|eauto].
  right. eexists. split; [reflexivity|].
  pose proof (base64_encode_length u) as Hb.
  destruct (encodeURIComponent_grows _ u Hu) as [[_ ->]|[_ Hlen]];
    cbn [List.length] in *; lia.
Qed.

Lemma encodeForTransmission_echo_or_longer_witness :
  (exists e, encodeForTransmission sample_text no_crypto_world
             = (Ok sample_text, logged (encode_failure e) no_crypto_world)) \/
  (exists r, encodeForTransmission sample_text no_crypto_world = (Ok r, no_crypto_world) /\
             (List.length sample_text < List.length r)%nat).
Proof.
  apply encodeForTransmission_echo_or_longer. discriminate.
Defined.

Lemma base64_encode_alphabet (x : list Z) :
  octets x ->
  forall c, In c (base64_encode x) -> c = 61 \/ exists v, b64_value c = Some v.
Proof.
  induction x as [|a|a b|a b c0 l IH] using list_ind3; intros Hx c Hc.
  - contradiction.
  - inversion Hx as [|? ? Ha _]; subst.
    cbn [base64_encode In] in Hc.
    repeat (destruct Hc as [Hc|Hc]; [subst c|]); try contradiction; auto.
    all: right; eexists; apply b64_char_value; divmod.
  - inversion Hx as [|? ? Ha Hx']; subst. inversion Hx' as [|? ? Hb _]; subst.
    cbn [base64_encode In] in Hc.
    repeat (destruct Hc as [Hc|Hc]; [subst c|]); try contradiction; auto.
    all: right; eexists; apply b64_char_value; divmod.
  - inversion Hx as [|? ? Ha Hx']; subst. inversion Hx' as [|? ? Hb Hx'']; subst.
    inversion Hx'' as [|? ? Hc0 Hl]; subst.
    cbn [base64_encode app In] in Hc.
    do 4 (destruct Hc as [Hc|Hc];
          [subst c; right; eexists; apply b64_char_value; divmod|]).
    apply IH; assumption.
Qed.

(** On a supported string the result is base64 text: a multiple of four
    units, each a letter, a digit, '+', '/' or the padding '='. *)
Theorem encodeForTransmission_base64_text (s : jsstring) (w : World) :
  code_units s ->
  well_formed s = true ->
  exists r,
    encodeForTransmission s w = (Ok r, w) /\
    Z.of_nat (List.length r) mod 4 = 0 /\
    forall c, In c r -> c = 61 \/ exists v, b64_value c = Some v.
Proof.
  intros Hs Hwf. destruct s as [|c0 s].
  - exists []. split; [reflexivity|]. split; [reflexivity | contradiction].
  - apply encodeURIComponent_defined in Hwf. destruct Hwf as [u Hu].
    destruct (encodeURIComponent_text _ Hs u Hu) as [Hascii _].
    apply ascii_units_octets in Hascii.
    exists (base64_encode u). split; [|split].
    + apply encodeForTransmission_supported; [assumption | discriminate | assumption].
    + apply (base64_text u Hascii).
    + apply base64_encode_alphabet, Hascii.
Qed.

Lemma encodeForTransmission_base64_text_witness :
  exists r,
    encodeForTransmission sample_text no_crypto_world = (Ok r, no_crypto_world) /\
    Z.of_nat (List.length r) mod 4 = 0 /\
    forall c, In c r -> c = 61 \/ exists v, b64_value c = Some v.
Proof.
  apply encodeForTransmission_base64_text.
  - repeat constructor; cbn; lia.
  - reflexivity.
Defined.

(** The result is [btoa] of the input itself exactly when the input consists
    of unreserved units only (letters, digits and [-_.!~*'()]); any other
    unit is percent-escaped before the base64 step. *)
Theorem encodeForTransmission_plain_base64 (s : jsstring) (w : World) :
  code_units s ->
  s <> [] ->
  encodeForTransmission s w = (btoa s, w) <-> forallb uri_unreserved s = true.
Proof.
  intros Hs Hne. rewrite encodeForTransmission_eval.
  destruct s as [|c0 s0] eqn:Es; [congruence|]. rewrite <- Es in *. clear Es Hne.
  split.
  - destruct (encodeURIComponent s) as [u|e] eqn:Hu; cbn [rbind].
    + destruct (encodeURIComponent_grows _ u Hu) as [[Hall _]|[_ Hlen]]; [auto|].
      destruct (encodeURIComponent_text _ Hs u Hu) as [Hascii _].
      rewrite (btoa_ascii u Hascii). intros H. exfalso.
      assert (Hb : btoa s = Ok (base64_encode u)) by congruence.
      unfold btoa in Hb.
      destruct (forallb (fun c => c <=? 255) s) eqn:E255; [|discriminate Hb].
      assert (He : base64_encode s = base64_encode u) by congruence.
      assert (Hoct : octets s).
      { apply Forall_forall. intros c Hc.
        unfold code_units in Hs. rewrite Forall_forall in Hs.
        pose proof (Hs c Hc) as Hrange.
        rewrite forallb_forall in E255. apply E255, Z.leb_le in Hc.
        unfold code_unit in Hrange. lia. }
      pose proof (atob_base64_encode s Hoct) as Ha.
      rewrite He, (atob_base64_encode u (ascii_units_octets u Hascii)) in Ha.
      assert (u = s) by congruence. subst u. lia.
    + intros H. exfalso.
      assert (Hw : logged (encode_failure e) w = w) by congruence.
      exact (logged_changes _ _ Hw).
  - intros Hall. rewrite (encodeURIComponent_unreserved s Hall). cbn [rbind].
    rewrite btoa_ascii; [reflexivity|].
    apply Forall_forall. intros c Hc.
    rewrite forallb_forall in Hall. apply Hall, unreserved_ascii in Hc. tauto.
Qed.

Lemma encodeForTransmission_plain_base64_witness :
  encodeForTransmission (lit "a b") no_crypto_world = (btoa (lit "a b"), no_crypto_world)
  <-> forallb uri_unreserved (lit "a b") = true.
Proof.
  apply encodeForTransmission_plain_base64.
  - repeat constructor; cbn; lia.
  - discriminate.
Defined.

(** Two strings with the same encoding are the same string. *)
Theorem encodeForTransmission_injective (s1 s2 e : jsstring) (w1 w1' w2 w2' : World) :
  code_units s1 -> code_units s2 ->
  encodeForTransmission s1 w1 = (Ok e, w1') ->
  encodeForTransmission s2 w2 = (Ok e, w2') ->
  s1 = s2.
Proof.
  intros H1 H2 E1 E2.
  destruct (transmission_round_trip_any s1 w1 H1) as [v1 R1].
  destruct (transmission_round_trip_any s2 w2 H2) as [v2 R2].
  unfold bind in R1, R2. rewrite E1 in R1. rewrite E2 in R2.
  rewrite decodeFromTransmission_eval in R1, R2.
  destruct e as [|c e].
  - injection R1 as <- _. injection R2 as <- _. reflexivity.
  - destruct (rbind (atob (c :: e)) decodeURIComponent).
    + injection R1 as <- _. injection R2 as <- _. reflexivity.
    + injection R1 as <- _. injection R2 as <- _. reflexivity.
Qed.

Lemma encodeForTransmission_injective_witness :
  lit "123456789" = [49; 50; 51; 52; 53; 54; 55; 56; 57].
Proof.
  apply (encodeForTransmission_injective _ _ (lit "MTIzNDU2Nzg5")
           no_crypto_world no_crypto_world digest_world digest_world).
  - repeat constructor; cbn; lia.
  - repeat constructor; cbn; lia.
  - reflexivity.
  - reflexivity.
Defined.

(** *** [decodeFromTransmission] *)

(** The counterpart for decoding: on a non-empty input, either the input
    comes back and one failure is logged, or nothing is logged and the result
    is strictly shorter than the input. *)
Theorem decodeFromTransmission_echo_or_shorter (s : jsstring) (w : World) :
  s <> [] ->
  (exists e, decodeFromTransmission s w = (Ok s, logged (decode_failure e) w)) \/
  (exists r, decodeFromTransmission s w = (Ok r, w) /\
             (List.length r < List.length s)%nat).
Proof.
  intros Hne. rewrite decodeFromTransmission_eval.
  destruct s as [|c s0]; [congruence|]. set (s := c :: s0) in *.
  destruct (atob s) as [b|e] eqn:Ha; cbn [rbind]; [|eauto].
  destruct (decodeURIComponent b) as [r|e] eqn:Hd; [|eauto].
  right. exists r. split; [reflexivity|].
  apply atob_length in Ha; [|exact Hne].
  apply decode_loop_length in Hd. lia.
Qed.

Lemma decodeFromTransmission_echo_or_shorter_witness :
  (exists e, decodeFromTransmission (lit "MTIzNDU2Nzg5") no_crypto_world
             = (Ok (lit "MTIzNDU2Nzg5"), logged (decode_failure e) no_crypto_world)) \/
  (exists r, decodeFromTransmission (lit "MTIzNDU2Nzg5") no_crypto_world
             = (Ok r, no_crypto_world) /\
             (List.length r < List.length (lit "MTIzNDU2Nzg5"))%nat).
Proof.
  apply decodeFromTransmission_echo_or_shorter. discriminate.
Defined.

Lemma atob_rejects (s : jsstring) (c : Z) :
  In c s -> b64_value c = None -> c <> 61 -> is_ascii_whitespace c = false ->
  atob s = Throw InvalidCharacterError.
Proof.
  intros Hin Hv H61 Hws. unfold atob.
  set (d := filter (fun x => negb (is_ascii_whitespace x)) s).
  assert (Hd : In c d) by (apply filter_In; rewrite Hws; auto).
  set (d' := if Z.of_nat (List.length d) mod 4 =? 0 then strip_padding d else d).
  assert (Hd' : In c d').
  { subst d'. destruct (_ =? 0); [apply strip_padding_keeps|]; assumption. }
  destruct (_ =? 1); [reflexivity|].
  rewrite (b64_values_none c d' Hd' Hv). reflexivity.
Qed.

(** Text that was never encoded is not mistaken for an encoding: an input
    with a unit that is neither of the base64 alphabet, nor '=', nor ASCII
    white space comes back as it is, with an [InvalidCharacterError] logged. *)
Theorem decodeFromTransmission_rejects (s : jsstring) (c : Z) (w : World) :
  In c s ->
  b64_value c = None -> c <> 61 -> is_ascii_whitespace c = false ->
  decodeFromTransmission s w
  = (Ok s, logged (decode_failure InvalidCharacterError) w).
Proof.
  intros Hin Hv H61 Hws. rewrite decodeFromTransmission_eval.
  destruct s as [|c0 s0]; [contradiction|].
  rewrite (atob_rejects _ c Hin Hv H61 Hws). reflexivity.
Qed.

Lemma decodeFromTransmission_rejects_witness :
  decodeFromTransmission (lit "123-45-6789") no_crypto_world
  = (Ok (lit "123-45-6789"),
     logged (decode_failure InvalidCharacterError) no_crypto_world).
Proof.
  apply (decodeFromTransmission_rejects _ 45).
  - cbn. tauto.
  - reflexivity.
  - discriminate.
  - reflexivity.
Defined.


Lemma atob_filter (x : jsstring) :
  atob x = atob (filter (fun c => negb (is_ascii_whitespace c)) x).
Proof. unfold atob. rewrite filter_filter. reflexivity. Qed.

(** Decoding does not mind ASCII white space (spaces, tabs, line breaks)
    inserted anywhere into an encoded text: the original string still comes
    back, with nothing logged. *)
Theorem decodeFromTransmission_ignores_whitespace
    (s e e' : jsstring) (w0 w0' w : World) :
  code_units s ->
  well_formed s = true ->
  encodeForTransmission s w0 = (Ok e, w0') ->
  filter (fun c => negb (is_ascii_whitespace c)) e' = e ->
  decodeFromTransmission e' w = (Ok s, w).
Proof.
  intros Hs Hwf Henc Hf. rewrite decodeFromTransmission_eval.
  destruct s as [|c0 s0] eqn:Es.
  - cbn in Henc. injection Henc as <- _.
    destruct e' as [|c' e0]; [reflexivity|].
    rewrite atob_filter, Hf. reflexivity.
  - rewrite <- Es in *.
    assert (Hne : s <> []) by (rewrite Es; discriminate).
    apply encodeURIComponent_defined in Hwf. destruct Hwf as [u Hu].
    rewrite (encodeForTransmission_supported s u w0 Hs Hne Hu) in Henc.
    injection Henc as <- _.
    destruct (encodeURIComponent_text _ Hs u Hu) as [Hascii Hu_ne].
    pose proof (base64_encode_nonempty u (Hu_ne Hne)) as Hb.
    destruct e' as [|c' e0]; [cbn in Hf; congruence|].
    rewrite atob_filter, Hf, atob_base64_encode by (apply ascii_units_octets, Hascii).
    cbn [rbind]. rewrite (decodeURIComponent_encode _ u Hs Hu). reflexivity.
Qed.

Lemma decodeFromTransmission_ignores_whitespace_witness :
  decodeFromTransmission [77; 84; 73; 122; 10; 78; 68; 85; 50; 32; 78; 122; 103; 53; 10]
    digest_world
  = (Ok (lit "123456789"), digest_world).
Proof.
  apply (decodeFromTransmission_ignores_whitespace _ (lit "MTIzNDU2Nzg5") _
           no_crypto_world no_crypto_world).
  - repeat constructor; cbn; lia.
  - reflexivity.
  - reflexivity.
  - reflexivity.
Defined.

(** *** [isSensitiveField] *)

Lemma includes_length (s t : jsstring) :
  includes s t = true -> (List.length t <= List.length s)%nat.
Proof.
  intros H. apply includes_substring in H. destruct H as (a & b & ->).
  rewrite !length_app. lia.
Qed.

Section SensitiveAscii.
Variable toLowerCase : jsstring -> jsstring.
Hypothesis toLowerCase_ascii :
  forall s, forallb is_ascii s = true -> toLowerCase s = map ascii_lower s.

(** An ASCII field name is sensitive as soon as one of the three names occurs
    in it, in whatever mix of upper and lower case and wherever it stands. *)
Theorem isSensitiveField_occurrence (pre n post : jsstring) :
  forallb is_ascii (pre ++ n ++ post) = true ->
  In (map ascii_lower n) [lit "ssn"; lit "socialsecuritynumber"; lit "dateofbirth"] ->
  isSensitiveField toLowerCase (pre ++ n ++ post) = true.
Proof.
  intros Hascii Hin.
  rewrite (isSensitiveField_any toLowerCase),
    (lower_names toLowerCase toLowerCase_ascii).
  apply existsb_exists. exists (map ascii_lower n). split; [exact Hin|].
  apply includes_substring.
  rewrite (toLowerCase_ascii _ Hascii), !map_app. eauto.
Qed.

(** An ASCII field name of fewer than three units, the empty name included,
    is never sensitive. *)
Theorem isSensitiveField_short (fieldName : jsstring) :
  forallb is_ascii fieldName = true ->
  (List.length fieldName < 3)%nat ->
  isSensitiveField toLowerCase fieldName = false.
Proof.
  intros Hascii Hlen.
  rewrite (isSensitiveField_any toLowerCase),
    (lower_names toLowerCase toLowerCase_ascii).
  rewrite (toLowerCase_ascii _ Hascii).
  destruct (existsb _ _) eqn:E; [|reflexivity].
  apply existsb_exists in E. destruct E as (name & Hin & Hinc).
  apply includes_length in Hinc. rewrite length_map in Hinc.
  cbn [In] in Hin.
  destruct Hin as [<-|[<-|[<-|[]]]]; cbn in Hinc; lia.
Qed.
End SensitiveAscii.

Lemma isSensitiveField_occurrence_witness :
  isSensitiveField ascii_toLowerCase (lit "applicant.DateOfBirth[0]") = true.
Proof.
  apply (isSensitiveField_occurrence ascii_toLowerCase (fun s _ => eq_refl)
           (lit "applicant.") (lit "DateOfBirth") (lit "[0]")).
  - reflexivity.
  - cbn. tauto.
Defined.

Lemma isSensitiveField_short_witness :
  isSensitiveField ascii_toLowerCase [] = false /\
  isSensitiveField ascii_toLowerCase (lit "SS") = false.
Proof.
  split; apply (isSensitiveField_short ascii_toLowerCase (fun s _ => eq_refl));
    (reflexivity || (cbn; lia)).
Defined.

End CodecExtras.

(* ------------------------------------------------------------------ *)
(** ** Further properties of signature-service.ts *)
(* ------------------------------------------------------------------ *)

Module SignatureExtras.
Import Js SignatureService Spec Terms Samples MoreSamples SignatureFacts.

(** *** [hashString] *)

Lemma hex_encode_length (d : list Byte.byte) :
  List.length (hex_encode d) = (2 * List.length d)%nat.
Proof.
  unfold hex_encode. induction d as [|b d IH]; [reflexivity|].
  cbn [flat_map List.length app]. rewrite IH. lia.
Qed.

Lemma hex_lower_digit (v : Z) :
  0 <= v < 16 -> is_digit (hex_lower v) = true \/ between 97 102 (hex_lower v) = true.
Proof.
  intros H. unfold hex_lower, is_digit, between.
  destruct (Z.ltb_spec v 10); [left | right];
    apply andb_true_iff; split; apply Z.leb_le; lia.
Qed.

Lemma hex_encode_digits (d : list Byte.byte) :
  Forall (fun c => is_digit c = true \/ between 97 102 c = true) (hex_encode d).
Proof.
  unfold hex_encode. induction d as [|b d IH]; [constructor|].
  cbn [flat_map]. pose proof (byte_value_range b) as Hb.
  rewrite <- hex_digits_agree. cbn [app].
  constructor; [|constructor; [|exact IH]];
    apply hex_lower_digit; Z.div_mod_to_equations; lia.
Qed.

(** [hashString] always returns.  Its result is the sentinel "unknown"
    exactly when the digest failed; when the digest resolves, the result has
    two units per octet, each one of 0-9 or a-f, and nothing is logged. *)
Theorem hashString_sentinel (data : jsstring) (w : World) :
  exists h w',
    hashString data w = (Ok h, w') /\
    (h = lit "unknown" <->
       exists e, subtle_digest w (TextEncoder_encode data) = Throw e) /\
    (forall d, subtle_digest w (TextEncoder_encode data) = Ok d ->
       List.length h = (2 * List.length d)%nat /\
       Forall (fun c => is_digit c = true \/ between 97 102 c = true) h /\
       w' = w).
Proof.
  destruct (subtle_digest w (TextEncoder_encode data)) as [d|e] eqn:E.
  - exists (hex_encode d), w. split; [apply hashString_resolves, E|]. split.
    + split.
      * intros H. apply (f_equal (@List.length Z)) in H.
        rewrite hex_encode_length in H. cbn in H. lia.
      * intros [e He]. discriminate He.
    + intros d' Hd'. injection Hd' as <-.
      split; [apply hex_encode_length|]. split; [apply hex_encode_digits | reflexivity].
  - eexists _, _. split; [apply hashString_fails, E|]. split.
    + split; eauto.
    + intros d Hd. discriminate Hd.
Qed.

(** *** [captureSignatureMetadata] *)

(** The record and the world [captureSignatureMetadata] ends with. *)
Lemma capture_eval (sv : jsstring) (w : World) :
  let ts := toISOString (clock w (ticks w)) in
  let digest := subtle_digest w (TextEncoder_encode (sv ++ ts)) in
  captureSignatureMetadata sv w =
    (Ok {| timestamp := ts;
           ipAddress := [];
           userAgent := nav_userAgent w;
           screenResolution :=
             Number_toString (screen_width w) ++ lit "x" ++
             Number_toString (screen_height w);
           timezone := intl_timeZone w;
           consentGiven := true;
           signatureValue := sv;
           signatureHash :=
             match digest with
             | Ok d => hex_encode d
             | Throw _ => lit "unknown"
             end;
           deviceFingerprint := fingerprint_at w (S (ticks w)) |},
     set_ticks (S (S (ticks w)))
       match digest with
       | Ok _ => w
       | Throw e => set_console (console w ++ [hash_failure e]) w
       end).
Proof.
  intros ts digest. subst ts digest.
  destruct (subtle_digest w (TextEncoder_encode (sv ++ toISOString (clock w (ticks w)))))
    as [d|e] eqn:E.
  - run_capture. rewrite (hashString_resolves _ _ d) by exact E. reflexivity.
  - run_capture. rewrite (hashString_fails _ _ e) by exact E. reflexivity.
Qed.

(** Capturing reads the clock twice and may add one entry to the log; it
    changes nothing else.  The timestamp is the first reading; the time-zone
    offset in the fingerprint is taken from the second.  The screen sizes are
    Numbers, so the area in the fingerprint is printed as the runtime prints
    their product: rounded to 53 bits, in exponent notation from 1e21. *)
Theorem capture_effects (sv : jsstring) (w w' : World) (m : SignatureMetadata) :
  is_Number (screen_width w) = true ->
  is_Number (screen_height w) = true ->
  captureSignatureMetadata sv w = (Ok m, w') ->
  ticks w' = S (S (ticks w)) /\
  timestamp m = toISOString (clock w (ticks w)) /\
  deviceFingerprint m = fingerprint_at w (S (ticks w)) /\
  (console w' = console w \/ exists e, console w' = console w ++ [hash_failure e]) /\
  (nav_userAgent w' = nav_userAgent w /\ nav_language w' = nav_language w /\
   nav_platform w' = nav_platform w /\ screen_width w' = screen_width w /\
   screen_height w' = screen_height w /\ intl_timeZone w' = intl_timeZone w /\
   clock w' = clock w /\ subtle_digest w' = subtle_digest w).
Proof.
  intros _ _. rewrite capture_eval. intros H. injection H as <- <-.
  destruct (subtle_digest w _) as [d|e];
    cbn [ticks timestamp deviceFingerprint console nav_userAgent nav_language
         nav_platform screen_width screen_height intl_timeZone clock
         subtle_digest set_ticks set_console];
    repeat split; eauto.
Qed.

Lemma capture_effects_witness :
  exists m w',
    captureSignatureMetadata (lit "Jane Doe") digest_world = (Ok m, w') /\
    ticks w' = 2%nat /\
    timestamp m = lit "2024-01-01T00:00:00.000Z" /\
    deviceFingerprint m = lit "unknown|Linux|-60|2073600".
Proof.
  eexists _, _. split; [apply capture_eval|].
  destruct (capture_effects (lit "Jane Doe") digest_world _ _ eq_refl eq_refl
              (capture_eval (lit "Jane Doe") digest_world))
    as (Ht & Hts & Hfp & _).
  split; [exact Ht|]. split; [exact Hts | exact Hfp].
Defined.

(** *** Capture, then validate *)

Lemma valid_no_errors (m : SignatureMetadata) :
  valid (validateSignatureMetadata m) = true <->
  errors (validateSignatureMetadata m) = [].
Proof.
  cbn [valid errors validateSignatureMetadata]. rewrite Nat.eqb_eq.
  apply length_zero_iff_nil.
Qed.

Lemma signature_long_enough (sv : jsstring) :
  falsy sv || (strlen sv <? 2) = false <-> (2 <= List.length sv)%nat.
Proof.
  unfold strlen. destruct sv as [|a l]; cbn [falsy orb List.length].
  - split; [discriminate | lia].
  - rewrite Z.ltb_ge. lia.
Qed.

Lemma hex_encode_empty (d : list Byte.byte) : falsy (hex_encode d) = true <-> d = [].
Proof. destruct d; cbn; split; congruence. Qed.

(** A freshly captured record is valid exactly when the clock gave a
    non-empty timestamp, the browser a non-empty user agent, the signature has
    at least two units, and the digest did not resolve to an empty buffer.  A
    failed digest does not make it invalid, and the consent check never
    fails on it. *)
Theorem captured_record_validity (sv : jsstring) (w w' : World) (m : SignatureMetadata) :
  captureSignatureMetadata sv w = (Ok m, w') ->
  (valid (validateSignatureMetadata m) = true <->
     toISOString (clock w (ticks w)) <> [] /\
     nav_userAgent w <> [] /\
     (2 <= List.length sv)%nat /\
     subtle_digest w (TextEncoder_encode (sv ++ toISOString (clock w (ticks w))))
       <> Ok []) /\
  ~ In (lit "Consent not given") (errors (validateSignatureMetadata m)).
Proof.
  rewrite capture_eval. intros H. injection H as <- _.
  rewrite valid_no_errors, validate_errors.
  cbn [timestamp userAgent signatureValue consentGiven signatureHash negb].
  rewrite <- signature_long_enough.
  set (ts := toISOString (clock w (ticks w))).
  destruct (subtle_digest w (TextEncoder_encode (sv ++ ts))) as [[|b0 d]|e];
    destruct ts as [|t0 ts']; destruct (nav_userAgent w) as [|u0 ua];
    destruct (falsy sv || (strlen sv <? 2));
    cbn [falsy app hex_encode flat_map In].
  all: split;
    [ split;
      [ intros Herr; try discriminate Herr; repeat split; congruence
      | intros (H1 & H2 & H3 & H4); try congruence; try reflexivity ]
    | intros Hin;
      repeat match type of Hin with
      | _ \/ _ => destruct Hin as [Hin|Hin]
      end; try contradiction; vm_compute in Hin; discriminate Hin ].
Qed.

Lemma captured_record_validity_witness :
  valid (validateSignatureMetadata
           {| timestamp := lit "2024-01-01T00:00:00.000Z";
              ipAddress := [];
              userAgent := lit "Mozilla/5.0";
              screenResolution := lit "1920x1080";
              timezone := lit "UTC";
              consentGiven := true;
              signatureValue := lit "Jane Doe";
              signatureHash := lit "unknown";
              deviceFingerprint := lit "en-US|unknown|0|2073600" |}) = true.
Proof.
  apply (captured_record_validity (lit "Jane Doe") no_crypto_world
           (set_ticks 2 (set_console [hash_failure TypeError] no_crypto_world))).
  - reflexivity.
  - repeat split; (discriminate || (cbn; lia)).
Defined.

(** *** [generateDeviceFingerprint] *)

Lemma or_zero_id (n : Z) : or_zero n = n.
Proof. unfold or_zero. destruct (Z.eqb_spec n 0); congruence. Qed.

(** The screen enters the fingerprint only as width times height: two
    environments that differ in nothing but the screen, with the same area
    (a rotated display, say), have the same fingerprint. *)
Theorem fingerprint_screen_area (w1 w2 : World) :
  nav_language w1 = nav_language w2 ->
  nav_platform w1 = nav_platform w2 ->
  getTimezoneOffset (clock w1 (ticks w1)) = getTimezoneOffset (clock w2 (ticks w2)) ->
  screen_width w1 * screen_height w1 = screen_width w2 * screen_height w2 ->
  fst (generateDeviceFingerprint w1) = fst (generateDeviceFingerprint w2).
Proof.
  intros Hl Hp Ht Ha.
  unfold generateDeviceFingerprint, bind, gets, new_Date, ret.
  cbn [fst nav_language nav_platform screen_width screen_height set_ticks].
  rewrite !or_zero_id, Hl, Hp, Ht, Ha. reflexivity.
Qed.

Lemma fingerprint_screen_area_witness :
  fst (generateDeviceFingerprint no_crypto_world) = fst (generateDeviceFingerprint rotated_world).
Proof.
  apply fingerprint_screen_area; reflexivity.
Defined.

(** *** [formatSignatureMetadata] *)

(** The audit block is eleven lines joined by line breaks, in this order.
    Every field is printed as it is: [trim] removes the template's own first
    line break and last indentation and nothing of the values, and an empty
    ipAddress is printed as "pending". *)
Theorem format_audit_block (m : SignatureMetadata) :
  formatSignatureMetadata m =
    join nl
      [lit "Signature Metadata (ESIGN Act Compliance)";
       lit "==========================================";
       lit "Signed By: " ++ signatureValue m;
       lit "Timestamp: " ++ timestamp m;
       lit "Time Zone: " ++ timezone m;
       lit "IP Address: " ++ (if falsy (ipAddress m) then lit "pending" else ipAddress m);
       lit "Device: " ++ screenResolution m;
       lit "User Agent: " ++ userAgent m;
       lit "Device Fingerprint: " ++ deviceFingerprint m;
       lit "Signature Hash: " ++ signatureHash m;
       lit "Consent Given: " ++ (if consentGiven m then lit "Yes" else lit "No")].
Proof.
  rewrite formatSignatureMetadata_lines. cbn [join].
  unfold or_else. repeat rewrite <- app_assoc. reflexivity.
Qed.

End SignatureExtras.
